(** * Arkrcon: the RCON client of src/Arkrcon/arkrcon.py

    A shallow embedding of the [RCON] class: the packet encoder
    [__build_packet], the byte-at-a-time receive parser of [__reception],
    the responded-ids registry, [send_cmd], [disconnect] and [connect].

    Python integers are [Z]; a [bytes] / [bytearray] object is a
    [list byte]; a Python [str] is the list of its Unicode code points.
    Exceptions are values of [exn]; code that can raise returns a [res],
    and code that also mutates the session runs in the monad [M], in which
    the mutations made before a raise are kept (as they are in Python). *)

From Stdlib Require Import ZArith List Bool Lia.
From Stdlib Require Import Strings.Byte.
Import ListNotations.
Open Scope Z_scope.

(** ** Exceptions and results *)

Inductive exn : Type :=
| OverflowError
| UnicodeEncodeError
| UnicodeDecodeError
| TypeError
| AttributeError
| OSError.

Inductive res (A : Type) : Type :=
| Ok (a : A)
| Raise (e : exn).

Arguments Ok {A} a.
Arguments Raise {A} e.

Definition res_bind {A B : Type} (r : res A) (k : A -> res B) : res B :=
  match r with
  | Ok a => k a
  | Raise e => Raise e
  end.

(** ** Bytes and fixed-width integers *)

Definition byte_val (b : byte) : Z := Z.of_N (Byte.to_N b).

Definition byte_of (z : Z) : byte :=
  match Byte.of_N (Z.to_N z) with
  | Some b => b
  | None => x00
  end.

(** The [n] little-endian digits, base 256, of [x]. *)
Fixpoint le_bytes (n : nat) (x : Z) : list byte :=
  match n with
  | O => []
  | S k => byte_of (x mod 256) :: le_bytes k (x / 256)
  end.

(** [int.to_bytes(x, n, "little", signed=False)]: OverflowError when [x] is
    negative or does not fit in [n] bytes. *)
Definition int_to_bytes (x : Z) (n : nat) : res (list byte) :=
  if (x <? 0) || (2 ^ (8 * Z.of_nat n) <=? x)
  then Raise OverflowError
  else Ok (le_bytes n x).

(** [int.from_bytes(bs, "little", signed=False)]. *)
Fixpoint int_from_bytes (bs : list byte) : Z :=
  match bs with
  | [] => 0
  | b :: r => byte_val b + 256 * int_from_bytes r
  end.

(** ** Python [str] and the UTF-8 codec

    [bytes(s, "UTF-8")] and [str(b, "UTF-8")] are Python built-ins; they
    are modelled by the strict UTF-8 codec: shortest form only, no
    surrogates, nothing above U+10FFFF. *)

Definition str : Type := list Z.

Definition cont (z : Z) : byte := byte_of (128 + z mod 64).

Definition utf8_encode_cp (c : Z) : option (list byte) :=
  if c <? 0 then None
  else if c <? 128 then Some [byte_of c]
  else if c <? 2048 then Some [byte_of (192 + c / 64); cont c]
  else if c <? 65536 then
    if (55296 <=? c) && (c <=? 57343) then None
    else Some [byte_of (224 + c / 4096); cont (c / 64); cont c]
  else if c <? 1114112 then
    Some [byte_of (240 + c / 262144); cont (c / 4096); cont (c / 64); cont c]
  else None.

Fixpoint utf8_encode (s : str) : option (list byte) :=
  match s with
  | [] => Some []
  | c :: r =>
    match utf8_encode_cp c, utf8_encode r with
    | Some bc, Some br => Some (bc ++ br)
    | _, _ => None
    end
  end.

Definition is_cont (b : byte) : bool :=
  (128 <=? byte_val b) && (byte_val b <? 192).

Definition cbits (b : byte) : Z := byte_val b - 128.

Fixpoint utf8_decode (bs : list byte) : option str :=
  match bs with
  | [] => Some []
  | b0 :: r0 =>
    let v0 := byte_val b0 in
    if v0 <? 128 then option_map (cons v0) (utf8_decode r0)
    else if v0 <? 192 then None
    else if v0 <? 224 then
      match r0 with
      | b1 :: r1 =>
        let c := (v0 - 192) * 64 + cbits b1 in
        if is_cont b1 && (128 <=? c)
        then option_map (cons c) (utf8_decode r1)
        else None
      | _ => None
      end
    else if v0 <? 240 then
      match r0 with
      | b1 :: b2 :: r2 =>
        let c := (v0 - 224) * 4096 + cbits b1 * 64 + cbits b2 in
        if is_cont b1 && is_cont b2 && (2048 <=? c)
           && negb ((55296 <=? c) && (c <=? 57343))
        then option_map (cons c) (utf8_decode r2)
        else None
      | _ => None
      end
    else if v0 <? 248 then
      match r0 with
      | b1 :: b2 :: b3 :: r3 =>
        let c := (v0 - 240) * 262144 + cbits b1 * 4096
                 + cbits b2 * 64 + cbits b3 in
        if is_cont b1 && is_cont b2 && is_cont b3
           && (65536 <=? c) && (c <? 1114112)
        then option_map (cons c) (utf8_decode r3)
        else None
      | _ => None
      end
    else None
  end.

(** [bytes(s, "UTF-8")] *)
Definition str_encode (s : str) : res (list byte) :=
  match utf8_encode s with
  | Some bs => Ok bs
  | None => Raise UnicodeEncodeError
  end.

(** [str(bs, "UTF-8")] *)
Definition bytes_decode (bs : list byte) : res str :=
  match utf8_decode bs with
  | Some s => Ok s
  | None => Raise UnicodeDecodeError
  end.

(** ** The encoder: [RCON.__build_packet] *)

Definition SERVERDATA_AUTH : Z := 3.
Definition SERVERDATA_AUTH_RESPONSE : Z := 2.
Definition SERVERDATA_EXECCOMMAND : Z := 2.
Definition SERVERDATA_RESPONSE_VALUE : Z := 0.

Definition build_packet (packet_id packet_type : Z) (packet_body : str)
  : res (list byte) :=
  res_bind (str_encode packet_body) (fun body =>
  let size := Z.of_nat (length body) + 10 in
  res_bind (int_to_bytes size 4) (fun bsize =>
  res_bind (int_to_bytes packet_id 4) (fun bid =>
  res_bind (int_to_bytes packet_type 4) (fun btype =>
  Ok (bsize ++ bid ++ btype ++ body ++ [x00] ++ [x00]))))).

(** ** The session object

    A socket records whether it is connected, whether it was shut down and
    closed on this end, and the bytes handed over to the transport so far. *)

Record socket : Type := {
  sock_connected : bool;
  sock_shut : bool;
  sock_closed : bool;
  sock_sent : list byte
}.

(** [socket.socket(socket.AF_INET, socket.SOCK_STREAM)] *)
Definition fresh_socket : socket :=
  {| sock_connected := false; sock_shut := false; sock_closed := false;
     sock_sent := [] |}.

(** A socket that is connected and neither shut down nor closed. *)
Definition open_socket : socket :=
  {| sock_connected := true; sock_shut := false; sock_closed := false;
     sock_sent := [] |}.

(** The socket can still carry data: the operating system refuses [send]
    (OSError) on any other socket. *)
Definition usable (k : socket) : bool :=
  sock_connected k && negb (sock_closed k) && negb (sock_shut k).

(** The socket can be shut down: [shutdown] is refused (OSError) on a
    socket that is closed or was never connected, and accepted on any
    other, shut down already or not. *)
Definition can_shut_down (k : socket) : bool :=
  sock_connected k && negb (sock_closed k).

(** What [__print_with_prefix] is asked to print.  The texts are fixed
    strings of the source, except the packet body and the command text. *)
Inductive message : Type :=
| MsgBody (b : option str)
| MsgPeerClosed        (* Connection closed on other end, stopping reception... *)
| MsgReceptionClosed   (* Reception thread closed. *)
| MsgSentCommand (content : str)
| MsgDisconnected      (* Disconnected Successfully. *)
| MsgConnected
| MsgReceptionStarted  (* Reception thread started. *)
| MsgPasswordSent.     (* Password sent. *)

Record line : Type := {
  line_msg : message;
  line_id : option Z;
  line_type : option Z
}.

Record RCON : Type := {
  ip : str;
  port : Z;
  password : str;
  sock : option socket;
  running : bool;
  responsed_to : list (option Z);
  printer : list line
}.

(** [RCON.__init__] *)
Definition RCON_init (rcon_ip : str) (rcon_port : Z) (rcon_password : str)
  : RCON :=
  {| ip := rcon_ip; port := rcon_port; password := rcon_password;
     sock := None; running := true; responsed_to := []; printer := [] |}.

Definition with_sock (k : option socket) (s : RCON) : RCON :=
  {| ip := ip s; port := port s; password := password s; sock := k;
     running := running s; responsed_to := responsed_to s;
     printer := printer s |}.

Definition with_running (v : bool) (s : RCON) : RCON :=
  {| ip := ip s; port := port s; password := password s; sock := sock s;
     running := v; responsed_to := responsed_to s; printer := printer s |}.

Definition with_responsed_to (l : list (option Z)) (s : RCON) : RCON :=
  {| ip := ip s; port := port s; password := password s; sock := sock s;
     running := running s; responsed_to := l; printer := printer s |}.

Definition with_printer (l : list line) (s : RCON) : RCON :=
  {| ip := ip s; port := port s; password := password s; sock := sock s;
     running := running s; responsed_to := responsed_to s; printer := l |}.

(** ** The monad of methods: session state plus exceptions *)

Definition M (A : Type) : Type := RCON -> res A * RCON.

Definition ret {A : Type} (a : A) : M A := fun s => (Ok a, s).

Definition raise {A : Type} (e : exn) : M A := fun s => (Raise e, s).

Definition bind {A B : Type} (m : M A) (k : A -> M B) : M B :=
  fun s =>
    match m s with
    | (Ok a, s') => k a s'
    | (Raise e, s') => (Raise e, s')
    end.

Definition lift {A : Type} (r : res A) : M A := fun s => (r, s).

(** [try: m  except Exception: h] *)
Definition try_except {A : Type} (m : M A) (h : exn -> M A) : M A :=
  fun s =>
    match m s with
    | (Ok a, s') => (Ok a, s')
    | (Raise e, s') => h e s'
    end.

Notation "x <- m ;; k" := (bind m (fun x => k))
  (at level 61, m at next level, right associativity).
Notation "m ;;; k" := (bind m (fun _ => k))
  (at level 61, right associativity).

(** ** Small methods *)

Definition set_responded (pack_id : option Z) : M unit :=
  fun s => (Ok tt, with_responsed_to (responsed_to s ++ [pack_id]) s).

Definition opt_eqb (a b : option Z) : bool :=
  match a, b with
  | Some x, Some y => x =? y
  | None, None => true
  | _, _ => false
  end.

(** [pack_id in self.__responsed_to] *)
Definition is_responded (s : RCON) (pack_id : Z) : bool :=
  existsb (opt_eqb (Some pack_id)) (responsed_to s).

Definition is_running (s : RCON) : bool := running s.

Definition set_running (val : bool) : M unit :=
  fun s => (Ok tt, with_running val s).

Definition print_with_prefix (msg : message) (pack_id pack_type : option Z)
  : M unit :=
  fun s =>
    (Ok tt,
     with_printer
       (printer s ++
        [{| line_msg := msg; line_id := pack_id; line_type := pack_type |}])
       s).

(** ** Socket operations on [self.__sock] *)

(** Looking up a method of [self.__sock]: AttributeError on [None]. *)
Definition sock_attr : M socket :=
  fun s =>
    match sock s with
    | None => (Raise AttributeError, s)
    | Some k => (Ok k, s)
    end.

(** What the transport does with one [send] call: it takes the first [n]
    bytes offered, or fails. *)
Inductive send_outcome : Type :=
| Accepts (n : nat)
| Fails.

(** [sock.send(data)]: returns the number of bytes taken. *)
Definition sock_send (o : send_outcome) (data : list byte) : M Z :=
  k <- sock_attr ;;
  if usable k then
    match o with
    | Fails => raise OSError
    | Accepts n =>
      let taken := firstn n data in
      fun s =>
        (Ok (Z.of_nat (length taken)),
         with_sock
           (Some {| sock_connected := sock_connected k;
                    sock_shut := sock_shut k; sock_closed := sock_closed k;
                    sock_sent := sock_sent k ++ taken |})
           s)
    end
  else raise OSError.

(** [sock.shutdown(socket.SHUT_RDWR)] *)
Definition sock_shutdown : M unit :=
  k <- sock_attr ;;
  if can_shut_down k then
    fun s =>
      (Ok tt,
       with_sock
         (Some {| sock_connected := sock_connected k; sock_shut := true;
                  sock_closed := sock_closed k; sock_sent := sock_sent k |})
         s)
  else raise OSError.

(** [sock.close()] *)
Definition sock_close : M unit :=
  k <- sock_attr ;;
  fun s =>
    (Ok tt,
     with_sock
       (Some {| sock_connected := sock_connected k; sock_shut := sock_shut k;
                sock_closed := true; sock_sent := sock_sent k |})
       s).

(** [sock.connect((ip, port))]: [conn_ok] tells whether the peer accepts. *)
Definition sock_connect (conn_ok : bool) : M unit :=
  k <- sock_attr ;;
  if conn_ok && negb (sock_closed k) then
    fun s =>
      (Ok tt,
       with_sock
         (Some {| sock_connected := true; sock_shut := sock_shut k;
                  sock_closed := sock_closed k; sock_sent := sock_sent k |})
         s)
  else raise OSError.

(** ** [RCON.send_cmd] and [RCON.disconnect] *)

Definition send_cmd (o : send_outcome) (pack_id : Z) (content : str)
  : M unit :=
  sock_attr ;;;
  data <- lift (build_packet pack_id SERVERDATA_EXECCOMMAND content) ;;
  sock_send o data ;;;
  print_with_prefix (MsgSentCommand content) None None.

Definition disconnect : M bool :=
  try_except
    (sock_shutdown ;;;
     sock_close ;;;
     print_with_prefix MsgDisconnected None None ;;;
     ret true)
    (fun _ => ret false).

(** ** The receive parser: [RCON.__reception] *)

Record PacketData : Type := {
  size : option Z;
  pack_id : option Z;
  pack_type : option Z;
  body : option str
}.

Definition no_packet : PacketData :=
  {| size := None; pack_id := None; pack_type := None; body := None |}.

(** The locals of [__reception]. *)
Record rx : Type := {
  state : nat;
  cur_item : list byte;
  cur_struct : PacketData
}.

Definition rx_init : rx :=
  {| state := 0; cur_item := []; cur_struct := no_packet |}.

Definition len (bs : list byte) : Z := Z.of_nat (length bs).

(** The body of [for b in buf]. *)
Definition step (r : rx) (b : byte) : M rx :=
  let cs := cur_struct r in
  if (state r =? 0)%nat && (len (cur_item r) <? 4) then
    let item := cur_item r ++ [b] in
    if len item =? 4 then
      ret {| state := 1; cur_item := [];
             cur_struct := {| size := Some (int_from_bytes item);
                              pack_id := pack_id cs;
                              pack_type := pack_type cs;
                              body := body cs |} |}
    else ret {| state := state r; cur_item := item; cur_struct := cs |}
  else if (state r =? 1)%nat && (len (cur_item r) <? 4) then
    let item := cur_item r ++ [b] in
    if len item =? 4 then
      ret {| state := 2; cur_item := [];
             cur_struct := {| size := size cs;
                              pack_id := Some (int_from_bytes item);
                              pack_type := pack_type cs;
                              body := body cs |} |}
    else ret {| state := state r; cur_item := item; cur_struct := cs |}
  else if (state r =? 2)%nat && (len (cur_item r) <? 4) then
    let item := cur_item r ++ [b] in
    if len item =? 4 then
      ret {| state := 3; cur_item := [];
             cur_struct := {| size := size cs;
                              pack_id := pack_id cs;
                              pack_type := Some (int_from_bytes item);
                              body := body cs |} |}
    else ret {| state := state r; cur_item := item; cur_struct := cs |}
  else if (state r =? 3)%nat then
    match size cs with
    | None => raise TypeError
    | Some sz =>
      if len (cur_item r) <? sz - 9 then
        let item := cur_item r ++ [b] in
        if len item =? sz - 9 then
          s <- lift (bytes_decode item) ;;
          ret {| state := 4; cur_item := [];
                 cur_struct := {| size := size cs;
                                  pack_id := pack_id cs;
                                  pack_type := pack_type cs;
                                  body := Some s |} |}
        else ret {| state := state r; cur_item := item; cur_struct := cs |}
      else ret r
    end
  else if (state r =? 4)%nat then
    print_with_prefix (MsgBody (body cs)) (pack_id cs) (pack_type cs) ;;;
    set_responded (pack_id cs) ;;;
    ret {| state := 0; cur_item := cur_item r; cur_struct := no_packet |}
  else ret r.

(** [for b in buf: ...] *)
Fixpoint feed (r : rx) (buf : list byte) : M rx :=
  match buf with
  | [] => ret r
  | b :: bs => r' <- step r b ;; feed r' bs
  end.

(** What [sock.recv(4096)] gives the loop: the bytes read - none when the
    peer has closed the connection - or an exception. *)
Inductive recv_result : Type :=
| Recv (buf : list byte)
| RecvRaises (e : exn).

(** Where the loop stands: waiting in [recv] with the locals [r], the test
    of [self.running] behind it, or out of the loop. *)
Inductive rx_outcome : Type :=
| Reading (r : rx)
| Returned.

(** The test of [while self.running]: the thread goes on to [recv], or
    leaves the loop and prints its last line. *)
Definition reception_test (r : rx) : M rx_outcome :=
  fun s =>
    if running s then (Ok (Reading r), s)
    else (print_with_prefix MsgReceptionClosed None None ;;; ret Returned) s.

(** One turn of the loop, from the return of [sock.recv(4096)] to the next
    test of the flag: an exception of [recv] is not caught; the empty
    result is the zero-length read of a closed peer; other bytes are parsed
    and the flag is tested afterwards. *)
Definition reception_step (r : rx) (x : recv_result) : M rx_outcome :=
  match x with
  | RecvRaises e => raise e
  | Recv [] =>
    closed <- disconnect ;;
    (if closed then print_with_prefix MsgPeerClosed None None
     else ret tt) ;;;
    print_with_prefix MsgReceptionClosed None None ;;;
    ret Returned
  | Recv buf => r' <- feed r buf ;; reception_test r'
  end.

(** The loop over the successive results of [recv], from a thread that
    waits in [recv]; when the results run out the thread is waiting
    again. *)
Fixpoint reception_on (r : rx) (recvs : list recv_result) : M rx_outcome :=
  match recvs with
  | [] => ret (Reading r)
  | x :: rest =>
    o <- reception_step r x ;;
    match o with
    | Reading r' => reception_on r' rest
    | Returned => ret Returned
    end
  end.

(** [__reception]: the first test of the flag, then the loop. *)
Definition reception_of (recvs : list recv_result) : M rx_outcome :=
  o <- reception_test rx_init ;;
  match o with
  | Reading r => reception_on r recvs
  | Returned => ret Returned
  end.

(** The same where every [recv] returns bytes. *)
Definition reception_turn (r : rx) (buf : list byte) : M rx_outcome :=
  reception_step r (Recv buf).

Definition reception_from (r : rx) (recvs : list (list byte)) : M rx_outcome :=
  reception_on r (map Recv recvs).

Definition reception (recvs : list (list byte)) : M rx_outcome :=
  reception_of (map Recv recvs).

(** ** [RCON.connect] and the two threads

    [conn_ok] tells whether the TCP connection is accepted and [o] what the
    transport does with the auth packet.  [connect_start] is the method up
    to its wait loop; the reception thread is started between its first two
    printed lines. *)
Definition connect_start (conn_ok : bool) (o : send_outcome) : M unit :=
  (fun s => (Ok tt, with_sock (Some fresh_socket) s)) ;;;
  sock_connect conn_ok ;;;
  print_with_prefix MsgConnected None None ;;;
  print_with_prefix MsgReceptionStarted None None ;;;
  sock_attr ;;;
  pw <- (fun s => (Ok (password s), s)) ;;
  data <- lift (build_packet 50 SERVERDATA_AUTH pw) ;;
  sock_send o data ;;;
  print_with_prefix MsgPasswordSent None None.

(** The reception thread: its locals while it waits in [recv]. *)
Inductive thread : Type :=
| Alive (r : rx)
| Dead.

(** The caller in [connect] and the reception thread; [w_slept] is the time
    the caller has spent in [time.sleep], in milliseconds. *)
Record world : Type := {
  w_self : RCON;
  w_thread : thread;
  w_slept : Z
}.

(** The reception thread takes the reads [recvs], one turn of its loop for
    each, until it leaves the loop or dies of an exception. *)
Definition thread_run (recvs : list (list byte)) (w : world) : world :=
  match w_thread w with
  | Dead => w
  | Alive r =>
    match reception_from r recvs (w_self w) with
    | (Ok (Reading r'), s') =>
      {| w_self := s'; w_thread := Alive r'; w_slept := w_slept w |}
    | (_, s') => {| w_self := s'; w_thread := Dead; w_slept := w_slept w |}
    end
  end.

(** [time.sleep(0.2)] *)
Definition sleep_200ms (w : world) : world :=
  {| w_self := w_self w; w_thread := w_thread w; w_slept := w_slept w + 200 |}.

(** [while not self.is_responded(50): time.sleep(0.2)].  [env k] is what
    the reception thread reads before the poll number [k]: before the first
    poll for [k = 0], during the sleep that precedes the poll otherwise.
    [None] when the loop is still running after [fuel] sleeps. *)
Fixpoint auth_wait (fuel : nat) (env : nat -> list (list byte)) (k : nat)
         (w : world) : option world :=
  let w1 := thread_run (env k) w in
  if is_responded (w_self w1) 50 then Some w1
  else
    match fuel with
    | O => None
    | S f => auth_wait f env (S k) (sleep_200ms w1)
    end.

Inductive connect_result : Type :=
| ConnectRaised (e : exn) (s : RCON)
| ConnectReturned (w : world).

(** The thread that [connect] has started: it reaches its first [recv],
    or leaves the loop at once when the flag is cleared. *)
Definition thread_start (s : RCON) : world :=
  match reception_test rx_init s with
  | (Ok (Reading r), s') =>
    {| w_self := s'; w_thread := Alive r; w_slept := 0 |}
  | (_, s') => {| w_self := s'; w_thread := Dead; w_slept := 0 |}
  end.

Definition connect (fuel : nat) (conn_ok : bool) (o : send_outcome)
           (env : nat -> list (list byte)) (s : RCON)
  : option connect_result :=
  match connect_start conn_ok o s with
  | (Raise e, s') => Some (ConnectRaised e s')
  | (Ok _, s') =>
    match auth_wait fuel env 0 (thread_start s') with
    | Some w => Some (ConnectReturned w)
    | None => None
    end
  end.

(** ** The operations on a session

    What either thread can do to the session object: the public methods,
    and, for a reception loop whose locals are [r], a test of the flag and
    a turn on a result of [recv]. *)
Inductive action : Type :=
| DoIsResponded (pack_id : Z)
| DoIsRunning
| DoSetRunning (val : bool)
| DoSendCmd (o : send_outcome) (pack_id : Z) (content : str)
| DoDisconnect
| DoConnectStart (conn_ok : bool) (o : send_outcome)
| DoTestRunning (r : rx)
| DoReceive (r : rx) (x : recv_result).

Definition perform (a : action) (s : RCON) : RCON :=
  match a with
  | DoIsResponded _ => s
  | DoIsRunning => s
  | DoSetRunning val => snd (set_running val s)
  | DoSendCmd o pack_id content => snd (send_cmd o pack_id content s)
  | DoDisconnect => snd (disconnect s)
  | DoConnectStart conn_ok o => snd (connect_start conn_ok o s)
  | DoTestRunning r => snd (reception_test r s)
  | DoReceive r x => snd (reception_step r x s)
  end.

Definition perform_all (acts : list action) (s : RCON) : RCON :=
  fold_left (fun s a => perform a s) acts s.

(** ** Vocabulary of the statements *)

(** The received packet as the loop reports it: one printed line and one
    entry of the responded ids. *)
Definition received (cs : PacketData) (s : RCON) : RCON :=
  with_responsed_to (responsed_to s ++ [pack_id cs])
    (with_printer
       (printer s ++ [{| line_msg := MsgBody (body cs);
                         line_id := pack_id cs;
                         line_type := pack_type cs |}])
       s).

(** The printed line of a received packet. *)
Definition packet_line (i t : Z) (b : str) : line :=
  {| line_msg := MsgBody (Some b); line_id := Some i; line_type := Some t |}.

(** A packet as the caller of the encoder gives it. *)
Record packet : Type := {
  p_id : Z;
  p_type : Z;
  p_body : str
}.

Definition encode (p : packet) : res (list byte) :=
  build_packet (p_id p) (p_type p) (p_body p).

(** The line with which the loop reports the packet [p] sent by
    [encode]: the body comes back with the first terminator byte. *)
Definition reported (p : packet) : line :=
  packet_line (p_id p) (p_type p) (p_body p ++ [0]).

(** What a run of the parser may change: lines are added to the printer and
    ids to the responded ids, nothing else. *)
Definition extends (s s' : RCON) : Prop :=
  ip s' = ip s /\ port s' = port s /\ password s' = password s /\
  sock s' = sock s /\ running s' = running s /\
  (exists ids, responsed_to s' = responsed_to s ++ ids) /\
  (exists ls, printer s' = printer s ++ ls).

(** The locals are well formed when, past the id field, the id read is an
    unsigned 32-bit value. *)
Definition rx_wf (r : rx) : Prop :=
  (state r <= 1)%nat \/
  exists i, pack_id (cur_struct r) = Some i /\ 0 <= i < 2 ^ 32.

(** The ids added between two session states are unsigned 32-bit values. *)
Definition adds_unsigned (s s' : RCON) : Prop :=
  exists ids,
    responsed_to s' = responsed_to s ++ map Some ids /\
    Forall (fun i => 0 <= i < 2 ^ 32) ids.

(** The world at the poll number [k + n] of the wait loop, from the world
    [w] in which the poll number [k] is about to be prepared. *)
Fixpoint polled (env : nat -> list (list byte)) (k n : nat) (w : world)
  : world :=
  let w1 := thread_run (env k) w in
  match n with
  | O => w1
  | S m => polled env (S k) m (sleep_200ms w1)
  end.

(** All that the reception thread has read by the poll number [k + n],
    from the poll number [k] on. *)
Fixpoint reads (env : nat -> list (list byte)) (k n : nat)
  : list (list byte) :=
  match n with
  | O => env k
  | S m => env k ++ reads env (S k) m
  end.

(** The server never replies to the auth packet: whatever it has sent by
    any poll is the beginning of a stream of packets none of which carries
    the id 50 (the peer may also close the connection). *)
Definition never_replies_to_auth (env : nat -> list (list byte)) : Prop :=
  forall n,
    exists pkts datas more,
      Forall2 (fun p d => encode p = Ok d) pkts datas /\
      Forall (fun p => p_id p <> 50) pkts /\
      concat (reads env 0 n) ++ more = concat datas.

(** The world in which [connect] enters its wait loop. *)
Definition waiting (conn_ok : bool) (o : send_outcome) (s : RCON) : world :=
  thread_start (snd (connect_start conn_ok o s)).

(** ** Concrete sessions, packets and servers *)

(** "hunter2" *)
Definition hunter2 : str := [104; 117; 110; 116; 101; 114; 50].

(** "saveworld" *)
Definition saveworld : str := [115; 97; 118; 101; 119; 111; 114; 108; 100].

(** A body of 4294967286 letters [a], whose packet size would be 2 ^ 32. *)
Definition huge_body : str := repeat 97 (Z.to_nat 4294967286).

(** A session just constructed, never connected. *)
Definition new_session : RCON := RCON_init [] 0 [].

(** A session whose socket is connected and open. *)
Definition connected_session : RCON := with_sock (Some open_socket) new_session.

(** The locals of the loop once the header (size 11, id 50, type 0) of a
    packet has been read. *)
Definition header_11 : PacketData :=
  {| size := Some 11; pack_id := Some 50; pack_type := Some 0; body := None |}.

Definition body_11 : rx :=
  {| state := 3; cur_item := []; cur_struct := header_11 |}.

(** Two packets, their encodings and one way of cutting the stream. *)
Definition auth_reply : packet := {| p_id := 50; p_type := 2; p_body := [] |}.
Definition ok_reply : packet :=
  {| p_id := 60; p_type := 0; p_body := [111; 107] |}.

Definition auth_reply_bytes : list byte :=
  [x0a; x00; x00; x00; x32; x00; x00; x00; x02; x00; x00; x00; x00; x00].
Definition ok_reply_bytes : list byte :=
  [x0c; x00; x00; x00; x3c; x00; x00; x00; x00; x00; x00; x00;
   x6f; x6b; x00; x00].

Definition cut_stream : list (list byte) :=
  [[x0a; x00; x00];
   [x00; x32; x00; x00; x00; x02; x00; x00; x00; x00; x00; x0c; x00];
   [x00; x00; x3c; x00; x00; x00; x00; x00; x00; x00; x6f; x6b; x00; x00]].

(** A packet (size 11, id 50, type 0) whose body is the byte FF. *)
Definition bad_utf8_packet : list byte :=
  [x0b; x00; x00; x00; x32; x00; x00; x00; x00; x00; x00; x00; xff; x00; x00].

(** The reply some servers send to a wrong password: id FF FF FF FF. *)
Definition auth_failure_bytes : list byte :=
  [x0a; x00; x00; x00; xff; xff; xff; xff; x02; x00; x00; x00; x00; x00].

(** A server that sends the reply to some command (id 60) and then nothing. *)
Definition other_reply_env (k : nat) : list (list byte) :=
  match k with
  | O => [ok_reply_bytes]
  | S _ => []
  end.

(** A server whose auth reply arrives during the second sleep. *)
Definition late_auth_env (k : nat) : list (list byte) :=
  match k with
  | 2%nat => [auth_reply_bytes]
  | _ => []
  end.

(** ** Further vocabulary *)

(** The shape of the locals that the loop can reach from its initial
    state. *)
Definition rx_sound (r : rx) : Prop :=
  (state r <= 4)%nat /\
  ((state r <= 2)%nat -> len (cur_item r) < 4) /\
  (state r = 4%nat -> cur_item r = []) /\
  ((1 <= state r)%nat ->
   exists sz, size (cur_struct r) = Some sz /\ 0 <= sz < 2 ^ 32) /\
  (state r = 3%nat ->
   forall sz, size (cur_struct r) = Some sz ->
              cur_item r = [] \/ len (cur_item r) < sz - 9).

(** The outcome of a run of the parser or of the loop is sound: sound
    locals, or the decoding error, or for the loop an exception that one
    of its calls of [recv] raised. *)
Definition sound_feed (x : res rx) : Prop :=
  match x with
  | Ok r => rx_sound r
  | Raise e => e = UnicodeDecodeError
  end.


(** A line printed without id and type. *)
Definition plain (m : message) : line :=
  {| line_msg := m; line_id := None; line_type := None |}.

(** Whether the session holds a socket that can still carry data. *)
Definition has_usable_sock (s : RCON) : bool :=
  match sock s with
  | Some k => usable k
  | None => false
  end.

(** Whether the session holds a socket that is connected and not closed,
    shut down already or not. *)
Definition has_open_sock (s : RCON) : bool :=
  match sock s with
  | Some k => can_shut_down k
  | None => false
  end.

(** A server that answers the auth packet with a packet of type 0 and
    id 50, in two reads. *)
Definition wrong_type_env (k : nat) : list (list byte) :=
  match k with
  | 1%nat => [[x0a; x00; x00; x00; x32; x00]]
  | 2%nat => [[x00; x00; x00; x00; x00; x00; x00; x00]]
  | _ => []
  end.

(** ** The save-and-exit sequence of the cluster shutdown

    The loop of [__main__] that, on one connection [conn], sends
    [saveworld] with id 60 and [doexit] with id 61, waiting after each for
    [is_responded]; each failed poll prints a line with the bare [print]
    and sleeps two seconds. *)

(** "doexit" *)
Definition doexit : str := [100; 111; 101; 120; 105; 116].

(** [time.sleep(2)] *)
Definition sleep_2s (w : world) : world :=
  {| w_self := w_self w; w_thread := w_thread w; w_slept := w_slept w + 2000 |}.

(** The caller of the sequence: the connection and its reception thread,
    the number of lines "Awaiting reply..." printed so far, and the number
    of the next poll in the schedule [env] of the reads. *)
Record caller : Type := {
  c_world : world;
  c_awaiting : nat;
  c_poll : nat
}.

Inductive progress : Type :=
| Finished (c : caller)
| StillWaiting (c : caller).

(** [while not conn.is_responded(cur_pack_id): print(...); time.sleep(2)];
    [StillWaiting] when the loop is still running after [fuel] sleeps. *)
Fixpoint await_reply (fuel : nat) (env : nat -> list (list byte))
         (cur_pack_id : Z) (c : caller) : progress :=
  let w1 := thread_run (env (c_poll c)) (c_world c) in
  if is_responded (w_self w1) cur_pack_id then
    Finished {| c_world := w1; c_awaiting := c_awaiting c;
                c_poll := S (c_poll c) |}
  else
    match fuel with
    | O => StillWaiting {| c_world := w1; c_awaiting := c_awaiting c;
                           c_poll := c_poll c |}
    | S f =>
      await_reply f env cur_pack_id
        {| c_world := sleep_2s w1; c_awaiting := S (c_awaiting c);
           c_poll := S (c_poll c) |}
    end.

Inductive sequence_result : Type :=
| SequenceRaised (e : exn) (c : caller)
| SequenceWaiting (cur_pack_id : Z) (c : caller)
| SequenceDone (c : caller).

(** [for cur_pack_id, cur_cmd in cmds: conn.send_cmd(...); while ...];
    [outcome] tells what the transport does with the packet of each id. *)
Fixpoint issue_commands (fuel : nat) (env : nat -> list (list byte))
         (outcome : Z -> send_outcome) (cmds : list (Z * str)) (c : caller)
  : sequence_result :=
  match cmds with
  | [] => SequenceDone c
  | (cur_pack_id, cur_cmd) :: rest =>
    match send_cmd (outcome cur_pack_id) cur_pack_id cur_cmd
            (w_self (c_world c)) with
    | (Raise e, s1) =>
      SequenceRaised e
        {| c_world := {| w_self := s1; w_thread := w_thread (c_world c);
                         w_slept := w_slept (c_world c) |};
           c_awaiting := c_awaiting c; c_poll := c_poll c |}
    | (Ok _, s1) =>
      match await_reply fuel env cur_pack_id
              {| c_world := {| w_self := s1; w_thread := w_thread (c_world c);
                               w_slept := w_slept (c_world c) |};
                 c_awaiting := c_awaiting c; c_poll := c_poll c |} with
      | StillWaiting c1 => SequenceWaiting cur_pack_id c1
      | Finished c1 => issue_commands fuel env outcome rest c1
      end
    end
  end.

Definition save_and_exit (fuel : nat) (env : nat -> list (list byte))
           (outcome : Z -> send_outcome) (c : caller) : sequence_result :=
  issue_commands fuel env outcome [(60, saveworld); (61, doexit)] c.

(** What the session has handed to the transport on its current socket. *)
Definition sent (s : RCON) : list byte :=
  match sock s with
  | Some k => sock_sent k
  | None => []
  end.

(** The server never sends the id [i]: whatever it has sent by any poll is
    the beginning of a stream of packets none of which carries that id. *)
Definition never_sends (i : Z) (env : nat -> list (list byte)) : Prop :=
  forall n,
    exists pkts datas more,
      Forall2 (fun p d => encode p = Ok d) pkts datas /\
      Forall (fun p => p_id p <> i) pkts /\
      concat (reads env 0 n) ++ more = concat datas.


(** The caller about to start the sequence on the session [s], whose
    reception thread waits in [recv] between two packets. *)
Definition starting (s : RCON) : caller :=
  {| c_world := {| w_self := s; w_thread := Alive rx_init; w_slept := 0 |};
     c_awaiting := 0; c_poll := 0 |}.

(** The packets of the two commands. *)
Definition saveworld_packet : list byte :=
  [x13; x00; x00; x00; x3c; x00; x00; x00; x02; x00; x00; x00;
   x73; x61; x76; x65; x77; x6f; x72; x6c; x64; x00; x00].


(** A server that replies to [saveworld] during the first sleep and to
    [doexit] during the sleep after the second command. *)
Definition obedient_env (k : nat) : list (list byte) :=
  match k with
  | 1%nat => [[x0a; x00; x00; x00; x3c; x00; x00; x00; x00; x00; x00; x00;
               x00; x00]]
  | 3%nat => [[x0a; x00; x00; x00; x3d; x00; x00; x00; x00; x00; x00; x00;
               x00; x00]]
  | _ => []
  end.

(** A server that replies to everything but [saveworld]: a packet with the
    id 61 and then nothing. *)
Definition deaf_env (k : nat) : list (list byte) :=
  match k with
  | O => [[x0a; x00; x00; x00; x3d; x00; x00; x00; x00; x00; x00; x00;
           x00; x00]]
  | S _ => []
  end.

(** A server whose reply to [saveworld] has a body that is not UTF-8, and
    which then sends a good reply with the same id. *)
Definition garbled_env (k : nat) : list (list byte) :=
  match k with
  | O => [[x0b; x00; x00; x00; x3c; x00; x00; x00; x00; x00; x00; x00;
           xff; x00; x00]]
  | S _ => [[x0a; x00; x00; x00; x3c; x00; x00; x00; x00; x00; x00; x00;
             x00; x00]]
  end.

(** * Properties *)

(** ** Bytes, integers and UTF-8 *)

Lemma byte_val_range (b : byte) : 0 <= byte_val b < 256.
Proof.
  unfold byte_val. pose proof (Byte.to_N_bounded b). lia.
Qed.

Lemma byte_val_of (z : Z) : 0 <= z < 256 -> byte_val (byte_of z) = z.
Proof.
  intros Hz. unfold byte_val, byte_of.
  destruct (Byte.of_N (Z.to_N z)) as [b|] eqn:E.
  - apply Byte.to_of_N in E. rewrite E. lia.
  - apply Byte.of_N_None_iff in E. lia.
Qed.

Lemma byte_of_val (b : byte) : byte_of (byte_val b) = b.
Proof.
  unfold byte_val, byte_of. rewrite N2Z.id, Byte.of_to_N. reflexivity.
Qed.

Lemma int_from_le_bytes (n : nat) :
  forall x, 0 <= x < 2 ^ (8 * Z.of_nat n) -> int_from_bytes (le_bytes n x) = x.
Proof.
  induction n as [|n IH]; intros x Hx.
  - simpl in *. lia.
  - cbn [le_bytes int_from_bytes].
    rewrite byte_val_of by (apply Z.mod_pos_bound; lia).
    rewrite IH.
    + pose proof (Z.div_mod x 256). lia.
    + replace (8 * Z.of_nat (S n)) with (8 + 8 * Z.of_nat n) in Hx by lia.
      rewrite Z.pow_add_r in Hx by lia.
      change (2 ^ 8) with 256 in Hx.
      split; [apply Z.div_pos; lia|].
      apply Z.div_lt_upper_bound; lia.
Qed.

Lemma le_bytes_length (n : nat) : forall x, length (le_bytes n x) = n.
Proof.
  induction n; intros x; simpl; [reflexivity | now rewrite IHn].
Qed.

Lemma int_to_bytes_ok (x : Z) (n : nat) :
  0 <= x < 2 ^ (8 * Z.of_nat n) -> int_to_bytes x n = Ok (le_bytes n x).
Proof.
  intros Hx. unfold int_to_bytes.
  destruct (Z.ltb_spec x 0); [lia|].
  destruct (Z.leb_spec (2 ^ (8 * Z.of_nat n)) x); [lia|]. reflexivity.
Qed.

Lemma int_to_bytes_overflow (x : Z) (n : nat) :
  x < 0 \/ 2 ^ (8 * Z.of_nat n) <= x -> int_to_bytes x n = Raise OverflowError.
Proof.
  intros Hx. unfold int_to_bytes.
  destruct (Z.ltb_spec x 0); [reflexivity|].
  destruct (Z.leb_spec (2 ^ (8 * Z.of_nat n)) x); [reflexivity|lia].
Qed.

Ltac byte_vals :=
  unfold cont;
  repeat match goal with
  | |- context [byte_val (byte_of ?z)] =>
    rewrite (byte_val_of z) by (Z.to_euclidean_division_equations; lia)
  end.

Ltac split_tests :=
  repeat match goal with
  | |- context [?a <? ?b] => destruct (Z.ltb_spec a b)
  | |- context [?a <=? ?b] => destruct (Z.leb_spec a b)
  end.

Lemma utf8_decode_cons (b0 : byte) (r0 : list byte) :
  utf8_decode (b0 :: r0) =
  let v0 := byte_val b0 in
  if v0 <? 128 then option_map (cons v0) (utf8_decode r0)
  else if v0 <? 192 then None
  else if v0 <? 224 then
    match r0 with
    | b1 :: r1 =>
      let c := (v0 - 192) * 64 + cbits b1 in
      if is_cont b1 && (128 <=? c)
      then option_map (cons c) (utf8_decode r1)
      else None
    | _ => None
    end
  else if v0 <? 240 then
    match r0 with
    | b1 :: b2 :: r2 =>
      let c := (v0 - 224) * 4096 + cbits b1 * 64 + cbits b2 in
      if is_cont b1 && is_cont b2 && (2048 <=? c)
         && negb ((55296 <=? c) && (c <=? 57343))
      then option_map (cons c) (utf8_decode r2)
      else None
    | _ => None
    end
  else if v0 <? 248 then
    match r0 with
    | b1 :: b2 :: b3 :: r3 =>
      let c := (v0 - 240) * 262144 + cbits b1 * 4096
               + cbits b2 * 64 + cbits b3 in
      if is_cont b1 && is_cont b2 && is_cont b3
         && (65536 <=? c) && (c <? 1114112)
      then option_map (cons c) (utf8_decode r3)
      else None
    | _ => None
    end
  else None.
Proof. reflexivity. Qed.

Lemma Some_inj {A : Type} (a b : A) : Some a = Some b -> a = b.
Proof. congruence. Qed.

Ltac decode_head :=
  rewrite utf8_decode_cons; cbv beta iota zeta; unfold is_cont, cbits;
  byte_vals.

Lemma utf8_decode_encode_cp (c : Z) (bc rest : list byte) :
  utf8_encode_cp c = Some bc ->
  utf8_decode (bc ++ rest) = option_map (cons c) (utf8_decode rest).
Proof.
  unfold utf8_encode_cp. intros H.
  destruct (Z.ltb_spec c 0); [discriminate|].
  destruct (Z.ltb_spec c 128).
  { apply Some_inj in H; subst bc. cbn [app]. decode_head.
    destruct (Z.ltb_spec c 128); [reflexivity|lia]. }
  destruct (Z.ltb_spec c 2048).
  { apply Some_inj in H; subst bc. cbn [app]. decode_head.
    replace ((192 + c / 64 - 192) * 64 + (128 + c mod 64 - 128)) with c
      by (Z.to_euclidean_division_equations; lia).
    split_tests; try (exfalso; Z.to_euclidean_division_equations; lia).
    reflexivity. }
  destruct (Z.ltb_spec c 65536).
  { destruct (Z.leb_spec 55296 c); destruct (Z.leb_spec c 57343);
      cbn [andb] in H; try discriminate;
      apply Some_inj in H; subst bc; cbn [app]; decode_head;
      replace ((224 + c / 4096 - 224) * 4096 + (128 + (c / 64) mod 64 - 128) * 64
               + (128 + c mod 64 - 128)) with c
        by (Z.to_euclidean_division_equations; lia);
      split_tests; try (exfalso; Z.to_euclidean_division_equations; lia);
      reflexivity. }
  destruct (Z.ltb_spec c 1114112); [|discriminate].
  apply Some_inj in H; subst bc. cbn [app]. decode_head.
  replace ((240 + c / 262144 - 240) * 262144
           + (128 + (c / 4096) mod 64 - 128) * 4096
           + (128 + (c / 64) mod 64 - 128) * 64 + (128 + c mod 64 - 128)) with c
    by (Z.to_euclidean_division_equations; lia).
  split_tests; try (exfalso; Z.to_euclidean_division_equations; lia).
  reflexivity.
Qed.

Lemma utf8_decode_encode_app (s : str) :
  forall bs rest,
    utf8_encode s = Some bs ->
    utf8_decode (bs ++ rest) = option_map (app s) (utf8_decode rest).
Proof.
  induction s as [|c s IH]; intros bs rest H.
  - apply Some_inj in H. subst bs. cbn [app].
    destruct (utf8_decode rest); reflexivity.
  - cbn [utf8_encode] in H.
    destruct (utf8_encode_cp c) as [bc|] eqn:Ec; [|discriminate].
    destruct (utf8_encode s) as [br|] eqn:Es; [|discriminate].
    apply Some_inj in H. subst bs.
    rewrite <- app_assoc, (utf8_decode_encode_cp c bc _ Ec), (IH br rest eq_refl).
    destruct (utf8_decode rest); reflexivity.
Qed.

Lemma utf8_decode_encode (s : str) (bs : list byte) :
  utf8_encode s = Some bs -> utf8_decode bs = Some s.
Proof.
  intros H. rewrite <- (app_nil_r bs), (utf8_decode_encode_app s bs [] H).
  cbn. now rewrite app_nil_r.
Qed.

(** ** The encoder *)

Lemma build_packet_inv (i t : Z) (b : str) (data : list byte) :
  build_packet i t b = Ok data ->
  exists bb,
    utf8_encode b = Some bb /\
    0 <= len bb + 10 < 2 ^ 32 /\ 0 <= i < 2 ^ 32 /\ 0 <= t < 2 ^ 32 /\
    data = le_bytes 4 (len bb + 10) ++ le_bytes 4 i ++ le_bytes 4 t
           ++ bb ++ [x00] ++ [x00].
Proof.
  unfold build_packet, str_encode, int_to_bytes, len. intros H.
  destruct (utf8_encode b) as [bb|]; [|discriminate]. cbn [res_bind] in H.
  change (8 * Z.of_nat 4) with 32 in H.
  destruct (Z.ltb_spec (Z.of_nat (length bb) + 10) 0); [discriminate|].
  destruct (Z.leb_spec (2 ^ 32) (Z.of_nat (length bb) + 10)); [discriminate|].
  cbn [orb res_bind] in H.
  destruct (Z.ltb_spec i 0); [discriminate|].
  destruct (Z.leb_spec (2 ^ 32) i); [discriminate|].
  cbn [orb res_bind] in H.
  destruct (Z.ltb_spec t 0); [discriminate|].
  destruct (Z.leb_spec (2 ^ 32) t); [discriminate|].
  cbn [orb res_bind] in H.
  exists bb. repeat split; try lia. congruence.
Qed.

Lemma build_packet_ok (i t : Z) (b : str) (bb : list byte) :
  utf8_encode b = Some bb ->
  len bb + 10 < 2 ^ 32 -> 0 <= i < 2 ^ 32 -> 0 <= t < 2 ^ 32 ->
  build_packet i t b =
  Ok (le_bytes 4 (len bb + 10) ++ le_bytes 4 i ++ le_bytes 4 t
      ++ bb ++ [x00] ++ [x00]).
Proof.
  intros Hb Hs Hi Ht. unfold build_packet, str_encode, len in *.
  rewrite Hb. cbn [res_bind].
  rewrite !int_to_bytes_ok by (change (8 * Z.of_nat 4) with 32; lia).
  reflexivity.
Qed.

(** ** The receive parser *)

Lemma len_app (a b : list byte) : len (a ++ b) = len a + len b.
Proof. unfold len. rewrite length_app. lia. Qed.

Lemma feed_app (a : list byte) :
  forall r b s, feed r (a ++ b) s = (r' <- feed r a ;; feed r' b) s.
Proof.
  induction a as [|x a IH]; intros r b s.
  - reflexivity.
  - cbn [app feed]. unfold bind.
    destruct (step r x s) as [[r'|e] s']; [|reflexivity].
    rewrite IH. reflexivity.
Qed.

Lemma feed_app_ok (a b : list byte) (r r' : rx) (s s' : RCON) :
  feed r a s = (Ok r', s') -> feed r (a ++ b) s = feed r' b s'.
Proof.
  intros H. rewrite feed_app. unfold bind. rewrite H. reflexivity.
Qed.

Lemma feed_size (bs : list byte) (cs : PacketData) (s : RCON) :
  length bs = 4%nat ->
  feed {| state := 0; cur_item := []; cur_struct := cs |} bs s =
  (Ok {| state := 1; cur_item := [];
         cur_struct := {| size := Some (int_from_bytes bs);
                          pack_id := pack_id cs; pack_type := pack_type cs;
                          body := body cs |} |}, s).
Proof.
  destruct bs as [|b0 [|b1 [|b2 [|b3 [|]]]]]; try discriminate.
  intros _. reflexivity.
Qed.

Lemma feed_id (bs : list byte) (cs : PacketData) (s : RCON) :
  length bs = 4%nat ->
  feed {| state := 1; cur_item := []; cur_struct := cs |} bs s =
  (Ok {| state := 2; cur_item := [];
         cur_struct := {| size := size cs;
                          pack_id := Some (int_from_bytes bs);
                          pack_type := pack_type cs; body := body cs |} |}, s).
Proof.
  destruct bs as [|b0 [|b1 [|b2 [|b3 [|]]]]]; try discriminate.
  intros _. reflexivity.
Qed.

Lemma feed_type (bs : list byte) (cs : PacketData) (s : RCON) :
  length bs = 4%nat ->
  feed {| state := 2; cur_item := []; cur_struct := cs |} bs s =
  (Ok {| state := 3; cur_item := [];
         cur_struct := {| size := size cs; pack_id := pack_id cs;
                          pack_type := Some (int_from_bytes bs);
                          body := body cs |} |}, s).
Proof.
  destruct bs as [|b0 [|b1 [|b2 [|b3 [|]]]]]; try discriminate.
  intros _. reflexivity.
Qed.

(** In state 3 a byte that does not complete the item is only stored. *)
Lemma step_body_more (ci : list byte) (cs : PacketData) (sz : Z) (b : byte)
      (s : RCON) :
  size cs = Some sz -> len ci + 1 < sz - 9 ->
  step {| state := 3; cur_item := ci; cur_struct := cs |} b s =
  (Ok {| state := 3; cur_item := ci ++ [b]; cur_struct := cs |}, s).
Proof.
  intros Hsz Hlt. unfold step. cbn [state cur_item cur_struct Nat.eqb andb].
  rewrite Hsz, len_app. change (len [b]) with 1.
  destruct (Z.ltb_spec (len ci) (sz - 9)); [|lia].
  destruct (Z.eqb_spec (len ci + 1) (sz - 9)); [lia|]. reflexivity.
Qed.

(** The byte that completes the item: the item is decoded, or the
    decoding error is raised. *)
Lemma step_body_last (ci : list byte) (cs : PacketData) (sz : Z) (b : byte)
      (s : RCON) :
  size cs = Some sz -> len ci + 1 = sz - 9 ->
  step {| state := 3; cur_item := ci; cur_struct := cs |} b s =
  match utf8_decode (ci ++ [b]) with
  | Some t =>
    (Ok {| state := 4; cur_item := [];
           cur_struct := {| size := size cs; pack_id := pack_id cs;
                            pack_type := pack_type cs; body := Some t |} |},
     s)
  | None => (Raise UnicodeDecodeError, s)
  end.
Proof.
  intros Hsz Heq. unfold step. cbn [state cur_item cur_struct Nat.eqb andb].
  rewrite Hsz, len_app. change (len [b]) with 1.
  destruct (Z.ltb_spec (len ci) (sz - 9)); [|lia].
  destruct (Z.eqb_spec (len ci + 1) (sz - 9)); [|lia].
  unfold bind, lift, bytes_decode, ret.
  destruct (utf8_decode (ci ++ [b])); reflexivity.
Qed.

(** In state 3, with an item that is already as long as [size - 9] or
    longer, the byte is dropped and nothing changes. *)
Lemma step_body_stuck (ci : list byte) (cs : PacketData) (sz : Z) (b : byte)
      (s : RCON) :
  size cs = Some sz -> sz - 9 <= len ci ->
  step {| state := 3; cur_item := ci; cur_struct := cs |} b s =
  (Ok {| state := 3; cur_item := ci; cur_struct := cs |}, s).
Proof.
  intros Hsz Hle. unfold step. cbn [state cur_item cur_struct Nat.eqb andb].
  rewrite Hsz. destruct (Z.ltb_spec (len ci) (sz - 9)); [lia|]. reflexivity.
Qed.

Lemma feed_body_more (bs : list byte) :
  forall ci cs sz s,
    size cs = Some sz -> len ci + len bs < sz - 9 ->
    feed {| state := 3; cur_item := ci; cur_struct := cs |} bs s =
    (Ok {| state := 3; cur_item := ci ++ bs; cur_struct := cs |}, s).
Proof.
  induction bs as [|b bs IH]; intros ci cs sz s Hsz Hlt.
  - rewrite app_nil_r. reflexivity.
  - change (b :: bs) with ([b] ++ bs) in Hlt. rewrite len_app in Hlt.
    change (len [b]) with 1 in Hlt. pose proof (Nat2Z.is_nonneg (length bs)).
    unfold len in *.
    cbn [feed]. unfold bind.
    rewrite (step_body_more ci cs sz b s Hsz) by (unfold len; lia).
    rewrite (IH (ci ++ [b]) cs sz s Hsz).
    + rewrite <- app_assoc. reflexivity.
    + rewrite length_app. cbn [length]. lia.
Qed.

Lemma step_terminator (ci : list byte) (cs : PacketData) (b : byte) (s : RCON) :
  step {| state := 4; cur_item := ci; cur_struct := cs |} b s =
  (Ok {| state := 0; cur_item := ci; cur_struct := no_packet |}, received cs s).
Proof. reflexivity. Qed.

Lemma utf8_decode_nul_terminated (b : str) (bb : list byte) :
  utf8_encode b = Some bb -> utf8_decode (bb ++ [x00]) = Some (b ++ [0]).
Proof.
  intros H. rewrite (utf8_decode_encode_app b bb [x00] H). reflexivity.
Qed.

Lemma feed_packet (i t : Z) (b : str) (data : list byte) (s : RCON) :
  build_packet i t b = Ok data ->
  feed rx_init data s =
  (Ok rx_init,
   received {| size := None; pack_id := Some i; pack_type := Some t;
               body := Some (b ++ [0]) |} s).
Proof.
  intros H. apply build_packet_inv in H.
  destruct H as (bb & Hb & Hs & Hi & Ht & ->).
  unfold rx_init.
  rewrite (feed_app_ok _ _ _ _ _ _ (feed_size _ _ _ (le_bytes_length 4 _))).
  rewrite (feed_app_ok _ _ _ _ _ _ (feed_id _ _ _ (le_bytes_length 4 _))).
  rewrite (feed_app_ok _ _ _ _ _ _ (feed_type _ _ _ (le_bytes_length 4 _))).
  rewrite !int_from_le_bytes by (change (8 * Z.of_nat 4) with 32; lia).
  cbn [size pack_id pack_type body no_packet].
  erewrite (feed_app_ok bb);
    [|apply feed_body_more with (sz := len bb + 10);
      [reflexivity | change (len []) with 0; lia]].
  cbn [app feed]. unfold bind.
  erewrite step_body_last; [|reflexivity|lia].
  rewrite (utf8_decode_nul_terminated b bb Hb).
  rewrite step_terminator. reflexivity.
Qed.

Lemma utf8_encode_repeat_a (n : nat) :
  utf8_encode (repeat 97 n) = Some (repeat x61 n).
Proof.
  induction n as [|n IH].
  - reflexivity.
  - cbn [repeat utf8_encode]. rewrite IH. reflexivity.
Qed.

(** C4, as stated, fails: the body of 4294967286 letters [a] is UTF-8 text,
    50 and 3 are in range, and the encoder raises OverflowError instead of
    emitting a packet. *)
Lemma build_packet_huge_body :
  utf8_encode huge_body = Some (repeat x61 (Z.to_nat 4294967286)) /\
  0 <= 50 < 2 ^ 32 /\ 0 <= 3 < 2 ^ 32 /\
  build_packet 50 3 huge_body = Raise OverflowError.
Proof.
  split; [apply utf8_encode_repeat_a|].
  split; [lia|]. split; [lia|].
  unfold build_packet, str_encode, huge_body.
  rewrite utf8_encode_repeat_a. cbn [res_bind].
  rewrite repeat_length, Z2Nat.id by lia.
  rewrite int_to_bytes_overflow; [reflexivity|].
  right. change (8 * Z.of_nat 4) with 32. lia.
Qed.

(** C4 (amended): for id and type in unsigned 32-bit range and a body whose
    UTF-8 encoding [bb] has fewer than 2 ^ 32 - 10 bytes, the encoder emits
    the 4-byte little-endian size [len bb + 10], the 4-byte little-endian
    id and type, the body bytes and two zero bytes; [build_packet 50 3
    "hunter2"] is the 21-byte sequence of the scenario. *)
Theorem build_packet_layout :
  (forall (i t : Z) (b : str) (bb : list byte),
      utf8_encode b = Some bb ->
      len bb + 10 < 2 ^ 32 -> 0 <= i < 2 ^ 32 -> 0 <= t < 2 ^ 32 ->
      exists fsize fid ftype,
        build_packet i t b = Ok (fsize ++ fid ++ ftype ++ bb ++ [x00] ++ [x00])
        /\ fsize = le_bytes 4 (len bb + 10) /\ fid = le_bytes 4 i
        /\ ftype = le_bytes 4 t
        /\ length fsize = 4%nat /\ length fid = 4%nat /\ length ftype = 4%nat
        /\ int_from_bytes fsize = len bb + 10
        /\ int_from_bytes fid = i /\ int_from_bytes ftype = t) /\
  build_packet 50 3 hunter2 =
  Ok [x11; x00; x00; x00; x32; x00; x00; x00; x03; x00; x00; x00;
      x68; x75; x6e; x74; x65; x72; x32; x00; x00].
Proof.
  split; [|vm_compute; reflexivity].
  intros i t b bb Hb Hs Hi Ht.
  exists (le_bytes 4 (len bb + 10)), (le_bytes 4 i), (le_bytes 4 t).
  rewrite (build_packet_ok i t b bb Hb Hs Hi Ht).
  rewrite !le_bytes_length.
  rewrite !int_from_le_bytes
    by (change (8 * Z.of_nat 4) with 32; unfold len in *; lia).
  repeat split.
Qed.

Lemma build_packet_layout_witness :
  exists fsize fid ftype,
    build_packet 50 3 hunter2 =
    Ok (fsize ++ fid ++ ftype
        ++ [x68; x75; x6e; x74; x65; x72; x32] ++ [x00] ++ [x00])
    /\ fsize = le_bytes 4 (len [x68; x75; x6e; x74; x65; x72; x32] + 10)
    /\ fid = le_bytes 4 50 /\ ftype = le_bytes 4 3
    /\ length fsize = 4%nat /\ length fid = 4%nat /\ length ftype = 4%nat
    /\ int_from_bytes fsize = len [x68; x75; x6e; x74; x65; x72; x32] + 10
    /\ int_from_bytes fid = 50 /\ int_from_bytes ftype = 3.
Proof.
  apply (proj1 build_packet_layout 50 3 hunter2
           [x68; x75; x6e; x74; x65; x72; x32]).
  - reflexivity.
  - vm_compute. reflexivity.
  - lia.
  - lia.
Defined.

(** C1, as stated, fails: the packet decoded from [build_packet 50 3
    "hunter2"] carries the body "hunter2" followed by a NUL character, not
    "hunter2". *)
Lemma built_hunter2_body_gains_nul :
  exists data s',
    build_packet 50 3 hunter2 = Ok data /\
    feed rx_init data new_session = (Ok rx_init, s') /\
    printer s' = [packet_line 50 3 (hunter2 ++ [0])] /\
    printer s' <> [packet_line 50 3 hunter2].
Proof.
  eexists. eexists. split; [vm_compute; reflexivity|].
  split; [vm_compute; reflexivity|].
  split; [reflexivity|]. discriminate.
Qed.

(** C1 (amended): for id and type in unsigned 32-bit range and a body that
    is UTF-8 text of fewer than 2 ^ 32 - 10 bytes, the encoder returns, and
    feeding the bytes it returns to the receive parser, started in its
    initial state, brings the parser back to its initial state having
    reported exactly one packet: one printed line and one responded id,
    with the id and type of the input and with the input body followed by
    one NUL character. *)
Theorem reception_of_built_packet (i t : Z) (b : str) (bb : list byte)
        (s : RCON) :
  0 <= i < 2 ^ 32 -> 0 <= t < 2 ^ 32 ->
  utf8_encode b = Some bb -> len bb + 10 < 2 ^ 32 ->
  exists data s',
    build_packet i t b = Ok data /\
    feed rx_init data s = (Ok rx_init, s') /\
    printer s' = printer s ++ [packet_line i t (b ++ [0])] /\
    responsed_to s' = responsed_to s ++ [Some i] /\
    sock s' = sock s /\ running s' = running s.
Proof.
  intros Hi Ht Hb Hs.
  pose proof (build_packet_ok i t b bb Hb Hs Hi Ht) as H.
  eexists. eexists. split; [exact H|].
  split; [apply (feed_packet i t b _ s H)|].
  repeat split.
Qed.

Lemma reception_of_built_packet_witness :
  exists data s',
    build_packet 50 3 hunter2 = Ok data /\
    feed rx_init data new_session = (Ok rx_init, s') /\
    printer s' = printer new_session ++ [packet_line 50 3 (hunter2 ++ [0])] /\
    responsed_to s' = responsed_to new_session ++ [Some 50] /\
    sock s' = sock new_session /\ running s' = running new_session.
Proof.
  apply (reception_of_built_packet 50 3 hunter2
           [x68; x75; x6e; x74; x65; x72; x32] new_session).
  - lia.
  - lia.
  - reflexivity.
  - vm_compute. reflexivity.
Defined.

(** C2, as stated, fails: with the parsed size 11 the body state is not
    done after 11 - 10 = 1 byte, it takes 11 - 9 = 2 bytes (the letter A
    and the first zero byte) and decodes both as the body; the terminator
    state then takes one byte, not two, before the packet is reported. *)
Lemma body_state_reads_size_minus_9 :
  feed body_11 [x41] new_session =
  (Ok {| state := 3; cur_item := [x41]; cur_struct := header_11 |},
   new_session)
  /\ feed body_11 [x41; x00] new_session =
     (Ok {| state := 4; cur_item := [];
            cur_struct := {| size := Some 11; pack_id := Some 50;
                             pack_type := Some 0; body := Some [65; 0] |} |},
      new_session)
  /\ fst (feed body_11 [x41; x00; x00] new_session) = Ok rx_init
  /\ printer (snd (feed body_11 [x41; x00; x00] new_session)) =
     [packet_line 50 0 [65; 0]].
Proof. repeat split. Qed.

(** C2 (amended): with a parsed size [sz] of at least 10, the body state
    takes exactly [sz - 9] bytes (body and first terminator byte): after any
    shorter prefix it is still collecting and nothing is reported; on the
    last of them the whole item is decoded as UTF-8, a failure raising
    UnicodeDecodeError.  The terminator state then takes exactly one byte,
    whatever its value, reports the completed packet (one printed line, one
    responded id) and the parser is back in its initial state. *)
Theorem body_then_terminator (cs : PacketData) (sz : Z) (bs : list byte)
        (s : RCON) :
  size cs = Some sz -> 10 <= sz -> len bs = sz - 9 ->
  let r := {| state := 3; cur_item := []; cur_struct := cs |} in
  (forall p q, bs = p ++ q -> q <> [] ->
     feed r p s = (Ok {| state := 3; cur_item := p; cur_struct := cs |}, s))
  /\ (utf8_decode bs = None -> feed r bs s = (Raise UnicodeDecodeError, s))
  /\ (forall t, utf8_decode bs = Some t ->
        let cs' := {| size := size cs; pack_id := pack_id cs;
                      pack_type := pack_type cs; body := Some t |} in
        feed r bs s = (Ok {| state := 4; cur_item := []; cur_struct := cs' |}, s)
        /\ forall x,
             feed r (bs ++ [x]) s = (Ok rx_init, received cs' s)
             /\ printer (received cs' s) =
                printer s ++ [{| line_msg := MsgBody (Some t);
                                 line_id := pack_id cs;
                                 line_type := pack_type cs |}]
             /\ responsed_to (received cs' s) = responsed_to s ++ [pack_id cs]).
Proof.
  intros Hsz Hmin Hlen r.
  assert (Hlast : exists ci b, bs = ci ++ [b]).
  { destruct (exists_last (l := bs)) as (ci & b & E); [|eauto].
    intros ->. change (len []) with 0 in Hlen. lia. }
  destruct Hlast as (ci & b & ->).
  rewrite len_app in Hlen. change (len [b]) with 1 in Hlen.
  assert (Hfull : feed r (ci ++ [b]) s =
                  match utf8_decode (ci ++ [b]) with
                  | Some t =>
                    (Ok {| state := 4; cur_item := [];
                           cur_struct := {| size := size cs;
                                            pack_id := pack_id cs;
                                            pack_type := pack_type cs;
                                            body := Some t |} |}, s)
                  | None => (Raise UnicodeDecodeError, s)
                  end).
  { unfold r. erewrite (feed_app_ok ci);
      [|apply feed_body_more with (sz := sz);
        [exact Hsz | change (len []) with 0; lia]].
    cbn [app feed]. unfold bind.
    erewrite step_body_last; [|exact Hsz|lia].
    destruct (utf8_decode (ci ++ [b])); reflexivity. }
  split; [|split].
  - intros p q E Hq. unfold r.
    rewrite (feed_body_more p [] cs sz s Hsz); [reflexivity|].
    assert (len (ci ++ [b]) = len p + len q) by (rewrite E; apply len_app).
    rewrite len_app in H. change (len [b]) with 1 in H.
    assert (0 < len q).
    { unfold len. destruct q; [congruence|]. cbn [length]. lia. }
    change (len []) with 0. lia.
  - intros E. rewrite Hfull, E. reflexivity.
  - intros t E. cbv zeta. split; [rewrite Hfull, E; reflexivity|].
    intros x. split; [|split; reflexivity].
    erewrite feed_app_ok; [|rewrite Hfull, E; reflexivity].
    cbn [feed]. unfold bind. rewrite step_terminator. reflexivity.
Qed.

Lemma body_then_terminator_witness :
  (forall p q, [x41; x00] = p ++ q -> q <> [] ->
     feed body_11 p new_session =
     (Ok {| state := 3; cur_item := p; cur_struct := header_11 |},
      new_session))
  /\ (utf8_decode [x41; x00] = None ->
      feed body_11 [x41; x00] new_session =
      (Raise UnicodeDecodeError, new_session))
  /\ (forall t, utf8_decode [x41; x00] = Some t ->
        let cs' := {| size := size header_11; pack_id := pack_id header_11;
                      pack_type := pack_type header_11; body := Some t |} in
        feed body_11 [x41; x00] new_session =
        (Ok {| state := 4; cur_item := []; cur_struct := cs' |}, new_session)
        /\ forall x,
             feed body_11 ([x41; x00] ++ [x]) new_session =
             (Ok rx_init, received cs' new_session)
             /\ printer (received cs' new_session) =
                printer new_session
                ++ [{| line_msg := MsgBody (Some t);
                       line_id := pack_id header_11;
                       line_type := pack_type header_11 |}]
             /\ responsed_to (received cs' new_session) =
                responsed_to new_session ++ [pack_id header_11]).
Proof.
  apply (body_then_terminator header_11 11 [x41; x00] new_session).
  - reflexivity.
  - lia.
  - reflexivity.
Defined.

(** A byte either leaves the session alone or reports the current packet. *)
Lemma step_effect (r : rx) (b : byte) (s : RCON) :
  snd (step r b s) = s \/
  (state r = 4%nat /\ step r b s =
     (Ok {| state := 0; cur_item := cur_item r; cur_struct := no_packet |},
      received (cur_struct r) s)).
Proof.
  destruct r as [st ci cs]. unfold step. cbn [state cur_item cur_struct].
  destruct st as [|[|[|[|[|st]]]]]; cbn [Nat.eqb andb].
  1-3: destruct (len ci <? 4); [destruct (len (ci ++ [b]) =? 4)|];
       left; reflexivity.
  - destruct (size cs) as [sz|]; [|left; reflexivity].
    destruct (len ci <? sz - 9); [|left; reflexivity].
    destruct (len (ci ++ [b]) =? sz - 9); [|left; reflexivity].
    unfold bind, lift, bytes_decode.
    destruct (utf8_decode (ci ++ [b])); left; reflexivity.
  - right. split; reflexivity.
  - left. reflexivity.
Qed.

Lemma extends_refl (s : RCON) : extends s s.
Proof.
  repeat split; exists []; now rewrite app_nil_r.
Qed.

Lemma extends_trans (a b c : RCON) : extends a b -> extends b c -> extends a c.
Proof.
  intros (?&?&?&?&?&(i1&?)&(l1&?)) (?&?&?&?&?&(i2&?)&(l2&?)).
  repeat split; try congruence.
  - exists (i1 ++ i2). rewrite app_assoc. congruence.
  - exists (l1 ++ l2). rewrite app_assoc. congruence.
Qed.

Lemma extends_received (cs : PacketData) (s : RCON) : extends s (received cs s).
Proof.
  repeat split; eexists; reflexivity.
Qed.

Lemma step_extends (r : rx) (b : byte) (s : RCON) : extends s (snd (step r b s)).
Proof.
  destruct (step_effect r b s) as [E|[_ E]]; rewrite E.
  - apply extends_refl.
  - apply extends_received.
Qed.

Lemma feed_extends (bs : list byte) :
  forall r s, extends s (snd (feed r bs s)).
Proof.
  induction bs as [|b bs IH]; intros r s.
  - apply extends_refl.
  - cbn [feed]. unfold bind.
    pose proof (step_extends r b s) as H1.
    destruct (step r b s) as [[r'|e] s1]; cbn [snd] in *.
    + eapply extends_trans; [exact H1|apply IH].
    + exact H1.
Qed.

Lemma feed_running (bs : list byte) (r : rx) (s : RCON) :
  running (snd (feed r bs s)) = running s.
Proof. apply (feed_extends bs r s). Qed.

Lemma reception_test_running (r : rx) (s : RCON) :
  running s = true -> reception_test r s = (Ok (Reading r), s).
Proof. intros H. unfold reception_test. rewrite H. reflexivity. Qed.

Lemma reception_test_stopped (r : rx) (s : RCON) :
  running s = false ->
  reception_test r s =
  (Ok Returned,
   with_printer
     (printer s ++ [{| line_msg := MsgReceptionClosed; line_id := None;
                       line_type := None |}]) s).
Proof. intros H. unfold reception_test. rewrite H. reflexivity. Qed.

Lemma reception_turn_cons (r : rx) (b : byte) (buf : list byte) (s : RCON) :
  reception_turn r (b :: buf) s =
  (r' <- feed r (b :: buf) ;; reception_test r') s.
Proof. reflexivity. Qed.

Lemma reception_from_cons (r : rx) (buf : list byte)
      (rest : list (list byte)) (s : RCON) :
  reception_from r (buf :: rest) s =
  (o <- reception_turn r buf ;;
   match o with
   | Reading r' => reception_from r' rest
   | Returned => ret Returned
   end) s.
Proof. reflexivity. Qed.

(** On a running session [__reception] passes its first test. *)
Lemma reception_running (recvs : list (list byte)) (s : RCON) :
  running s = true -> reception recvs s = reception_from rx_init recvs s.
Proof.
  intros H. unfold reception, reception_of, bind.
  rewrite (reception_test_running rx_init s H). reflexivity.
Qed.

(** What a turn on bytes comes to: the exception of the parser, or the
    parsed bytes followed by the test of the flag. *)
Lemma reception_turn_cases (r : rx) (b : byte) (buf : list byte) (s : RCON) :
  (exists e s1,
      feed r (b :: buf) s = (Raise e, s1) /\
      reception_turn r (b :: buf) s = (Raise e, s1))
  \/ (exists r1 s1,
         feed r (b :: buf) s = (Ok r1, s1) /\ running s1 = true /\
         reception_turn r (b :: buf) s = (Ok (Reading r1), s1))
  \/ (exists r1 s1,
         feed r (b :: buf) s = (Ok r1, s1) /\ running s1 = false /\
         reception_turn r (b :: buf) s =
         (Ok Returned,
          with_printer
            (printer s1 ++ [{| line_msg := MsgReceptionClosed;
                               line_id := None; line_type := None |}]) s1)).
Proof.
  rewrite reception_turn_cons. unfold bind.
  destruct (feed r (b :: buf) s) as [[r1|e] s1].
  - destruct (running s1) eqn:E.
    + right. left. exists r1, s1.
      rewrite (reception_test_running r1 s1 E). auto.
    + right. right. exists r1, s1.
      rewrite (reception_test_stopped r1 s1 E). auto.
  - left. exists e, s1. auto.
Qed.

(** A turn of the loop on a running session with a non-empty read is the
    parser run on the bytes read. *)
Lemma reception_turn_data (r : rx) (buf : list byte) (s : RCON) :
  running s = true -> buf <> [] ->
  reception_turn r buf s = (r' <- feed r buf ;; ret (Reading r')) s.
Proof.
  intros Hr Hb. destruct buf as [|b buf]; [congruence|].
  rewrite reception_turn_cons. unfold bind.
  pose proof (feed_running (b :: buf) r s) as Hrun.
  destruct (feed r (b :: buf) s) as [[r1|e] s1]; [|reflexivity].
  cbn [snd] in Hrun. apply reception_test_running. congruence.
Qed.

(** The loop over non-empty reads is the parser run on their concatenation:
    the locals carry over from one read to the next. *)
Lemma reception_from_concat (chunks : list (list byte)) :
  forall r s,
    running s = true -> Forall (fun c => c <> []) chunks ->
    reception_from r chunks s =
    (r' <- feed r (concat chunks) ;; ret (Reading r')) s.
Proof.
  induction chunks as [|c chunks IH]; intros r s Hr Hne.
  - reflexivity.
  - inversion Hne as [|? ? Hc Hrest]; subst.
    rewrite reception_from_cons. cbn [concat]. unfold bind.
    rewrite (reception_turn_data r c s Hr Hc), feed_app.
    unfold bind.
    pose proof (feed_running c r s) as Hrun.
    destruct (feed r c s) as [[r1|e] s1]; cbn [snd] in Hrun.
    + unfold ret at 1. rewrite IH by congruence. reflexivity.
    + reflexivity.
Qed.

Lemma feed_packets (pkts : list packet) :
  forall datas s,
    Forall2 (fun p d => encode p = Ok d) pkts datas ->
    exists s',
      feed rx_init (concat datas) s = (Ok rx_init, s') /\
      printer s' = printer s ++ map reported pkts /\
      responsed_to s' = responsed_to s ++ map (fun p => Some (p_id p)) pkts /\
      sock s' = sock s /\ running s' = running s.
Proof.
  induction pkts as [|p pkts IH]; intros datas s H;
    inversion H as [|? d ? ds Hp Hrest]; subst.
  - exists s. cbn. rewrite !app_nil_r. repeat split.
  - cbn [concat]. unfold encode in Hp.
    erewrite feed_app_ok; [|apply (feed_packet _ _ _ _ s Hp)].
    destruct (IH ds (received {| size := None; pack_id := Some (p_id p);
                                 pack_type := Some (p_type p);
                                 body := Some (p_body p ++ [0]) |} s) Hrest)
      as (s' & Hf & Hpr & Hre & Hso & Hru).
    exists s'. split; [exact Hf|].
    rewrite Hpr, Hre, Hso, Hru. cbn [map].
    unfold received, with_responsed_to, with_printer.
    cbn [printer responsed_to sock running pack_id pack_type body].
    rewrite <- !app_assoc. repeat split.
Qed.

Lemma concat_nonempty (chunks : list (list byte)) :
  chunks <> [] -> Forall (fun c => c <> []) chunks -> concat chunks <> [].
Proof.
  intros Hne Hall. destruct chunks as [|c chunks]; [congruence|].
  inversion Hall; subst. destruct c; [congruence|]. discriminate.
Qed.

(** C3: for packets accepted by the encoder, a running session and any
    split of the concatenated encodings into one or more non-empty reads,
    the reception loop ends where it ends on the whole sequence read at
    once: waiting for the next read with the parser in its initial state,
    having reported exactly the N packets, in order (N printed lines, N
    responded ids). *)
Theorem fragmentation_coalescing (pkts : list packet)
        (datas chunks : list (list byte)) (s : RCON) :
  running s = true ->
  Forall2 (fun p d => encode p = Ok d) pkts datas ->
  chunks <> [] -> Forall (fun c => c <> []) chunks ->
  concat chunks = concat datas ->
  reception chunks s = reception [concat datas] s /\
  exists s',
    reception chunks s = (Ok (Reading rx_init), s') /\
    printer s' = printer s ++ map reported pkts /\
    length (map reported pkts) = length datas /\
    responsed_to s' = responsed_to s ++ map (fun p => Some (p_id p)) pkts.
Proof.
  intros Hr Henc Hne Hall Hcat.
  pose proof (concat_nonempty chunks Hne Hall) as Hdata.
  destruct (feed_packets pkts datas s Henc) as (s' & Hf & Hpr & Hre & _ & _).
  assert (Hchunks : reception chunks s = (Ok (Reading rx_init), s')).
  { rewrite (reception_running _ _ Hr).
    rewrite (reception_from_concat chunks rx_init s Hr Hall).
    rewrite Hcat. unfold bind. rewrite Hf. reflexivity. }
  split.
  - rewrite Hchunks, (reception_running _ _ Hr).
    rewrite (reception_from_concat [concat datas] rx_init s Hr).
    + cbn [concat]. rewrite app_nil_r. unfold bind. rewrite Hf. reflexivity.
    + constructor; [congruence|constructor].
  - exists s'. repeat split; try assumption.
    rewrite length_map. eapply Forall2_length; eassumption.
Qed.

Lemma fragmentation_coalescing_witness :
  reception cut_stream new_session =
  reception [concat [auth_reply_bytes; ok_reply_bytes]] new_session /\
  exists s',
    reception cut_stream new_session = (Ok (Reading rx_init), s') /\
    printer s' = printer new_session ++ map reported [auth_reply; ok_reply] /\
    length (map reported [auth_reply; ok_reply]) =
    length [auth_reply_bytes; ok_reply_bytes] /\
    responsed_to s' =
    responsed_to new_session
    ++ map (fun p => Some (p_id p)) [auth_reply; ok_reply].
Proof.
  apply (fragmentation_coalescing [auth_reply; ok_reply]
           [auth_reply_bytes; ok_reply_bytes] cut_stream new_session).
  - reflexivity.
  - constructor; [vm_compute; reflexivity|].
    constructor; [vm_compute; reflexivity|]. constructor.
  - discriminate.
  - repeat constructor; discriminate.
  - reflexivity.
Defined.

(** C9, as stated, fails: on a connected session a body that is not UTF-8
    makes the loop raise UnicodeDecodeError with the session untouched -
    the socket still open, nothing printed; the zero-length read instead
    goes through [disconnect], closes the socket and prints its lines. *)
Lemma decode_error_skips_disconnect :
  reception [bad_utf8_packet] connected_session =
  (Raise UnicodeDecodeError, connected_session)
  /\ sock connected_session = Some open_socket
  /\ printer connected_session = []
  /\ fst (reception [[]] connected_session) = Ok Returned
  /\ sock (snd (reception [[]] connected_session)) =
     Some {| sock_connected := true; sock_shut := true; sock_closed := true;
             sock_sent := [] |}
  /\ map line_msg (printer (snd (reception [[]] connected_session))) =
     [MsgDisconnected; MsgPeerClosed; MsgReceptionClosed].
Proof. repeat split. Qed.

(** C9 (amended): when the byte that completes the body item makes it
    invalid UTF-8, the decoding error is fatal to the loop: [__reception]
    ends by raising UnicodeDecodeError, the rest of the read and all later
    reads are never parsed, and the session is left as it was before that
    byte - [disconnect] is not called, the socket and the running flag are
    untouched and no line is printed. *)
Theorem decode_error_is_fatal (r0 : rx) (pre post : list byte)
        (rest : list (list byte)) (s s1 : RCON)
        (ci : list byte) (cs : PacketData) (sz : Z) (b : byte) :
  running s = true ->
  feed r0 pre s = (Ok {| state := 3; cur_item := ci; cur_struct := cs |}, s1) ->
  size cs = Some sz -> len ci + 1 = sz - 9 ->
  utf8_decode (ci ++ [b]) = None ->
  reception_from r0 ((pre ++ b :: post) :: rest) s =
  (Raise UnicodeDecodeError, s1)
  /\ sock s1 = sock s /\ running s1 = running s.
Proof.
  intros Hr Hpre Hsz Hlen Hbad.
  assert (Hs1 : extends s s1).
  { pose proof (feed_extends pre r0 s) as H. rewrite Hpre in H. exact H. }
  split; [|split; apply Hs1].
  rewrite reception_from_cons. unfold bind.
  rewrite reception_turn_data; [|exact Hr|destruct pre; discriminate].
  unfold bind. rewrite (feed_app_ok pre _ _ _ _ _ Hpre).
  cbn [feed]. unfold bind.
  rewrite (step_body_last ci cs sz b s1 Hsz Hlen), Hbad. reflexivity.
Qed.

Lemma decode_error_is_fatal_witness :
  reception_from rx_init
    (([x0b; x00; x00; x00; x32; x00; x00; x00; x00; x00; x00; x00; xff]
      ++ x00 :: [x00]) :: [[x00]]) connected_session =
  (Raise UnicodeDecodeError, connected_session)
  /\ sock connected_session = sock connected_session
  /\ running connected_session = running connected_session.
Proof.
  apply (decode_error_is_fatal rx_init
           [x0b; x00; x00; x00; x32; x00; x00; x00; x00; x00; x00; x00; xff]
           [x00] [[x00]] connected_session connected_session
           [xff] header_11 11 x00).
  - reflexivity.
  - reflexivity.
  - reflexivity.
  - reflexivity.
  - reflexivity.
Defined.

Lemma int_from_bytes_range (bs : list byte) :
  0 <= int_from_bytes bs < 2 ^ (8 * len bs).
Proof.
  induction bs as [|b bs IH].
  - cbn. lia.
  - cbn [int_from_bytes]. pose proof (byte_val_range b).
    replace (8 * len (b :: bs)) with (8 + 8 * len bs)
      by (unfold len; cbn [length]; lia).
    rewrite Z.pow_add_r by (unfold len; lia).
    change (2 ^ 8) with 256. lia.
Qed.

Lemma int_from_bytes_4 (bs : list byte) :
  len bs = 4 -> 0 <= int_from_bytes bs < 2 ^ 32.
Proof.
  intros H. pose proof (int_from_bytes_range bs) as R.
  rewrite H in R. exact R.
Qed.

Lemma adds_unsigned_refl (s : RCON) : adds_unsigned s s.
Proof. exists []. cbn. rewrite app_nil_r. split; [reflexivity|constructor]. Qed.

Lemma adds_unsigned_trans (a b c : RCON) :
  adds_unsigned a b -> adds_unsigned b c -> adds_unsigned a c.
Proof.
  intros (i1 & E1 & F1) (i2 & E2 & F2). exists (i1 ++ i2).
  rewrite map_app, app_assoc, <- E1, <- E2.
  split; [reflexivity|]. apply Forall_app. split; assumption.
Qed.

Lemma step_unsigned (r : rx) (b : byte) (s : RCON) :
  rx_wf r ->
  adds_unsigned s (snd (step r b s)) /\
  forall r', fst (step r b s) = Ok r' -> rx_wf r'.
Proof.
  destruct r as [st ci cs]. unfold rx_wf, step.
  cbn [state cur_item cur_struct]. intros Hwf.
  destruct st as [|[|[|[|[|st]]]]]; cbn [Nat.eqb andb].
  - destruct (len ci <? 4); [destruct (len (ci ++ [b]) =? 4)|];
      (split; [apply adds_unsigned_refl|]);
      intros r' E; apply Some_inj in E || injection E as E; subst r';
      left; cbn; lia.
  - destruct (len ci <? 4); [destruct (Z.eqb_spec (len (ci ++ [b])) 4)|];
      (split; [apply adds_unsigned_refl|]);
      intros r' E; injection E as E; subst r'; cbn [state cur_struct pack_id].
    + right. eexists. split; [reflexivity|]. now apply int_from_bytes_4.
    + left. lia.
    + left. lia.
  - destruct Hwf as [Hwf|Hwf]; [lia|].
    destruct (len ci <? 4); [destruct (len (ci ++ [b]) =? 4)|];
      (split; [apply adds_unsigned_refl|]);
      intros r' E; injection E as E; subst r'; right; exact Hwf.
  - destruct Hwf as [Hwf|Hwf]; [lia|].
    destruct (size cs) as [sz|];
      [|split; [apply adds_unsigned_refl|discriminate]].
    destruct (len ci <? sz - 9);
      [destruct (len (ci ++ [b]) =? sz - 9)|];
      try (split; [apply adds_unsigned_refl|];
           intros r' E; injection E as E; subst r'; right; exact Hwf).
    unfold bind, lift, bytes_decode.
    destruct (utf8_decode (ci ++ [b]));
      (split; [apply adds_unsigned_refl|]); [|discriminate].
    intros r' E; injection E as E; subst r'; right; exact Hwf.
  - destruct Hwf as [Hwf|(i & Hi & Hr)]; [lia|].
    split.
    + exists [i]. cbn. rewrite Hi. split; [reflexivity|].
      constructor; [exact Hr|constructor].
    + intros r' E; injection E as E; subst r'. left. cbn. lia.
  - split; [apply adds_unsigned_refl|].
    intros r' E; injection E as E; subst r'. exact Hwf.
Qed.

Lemma feed_unsigned (bs : list byte) :
  forall r s,
    rx_wf r ->
    adds_unsigned s (snd (feed r bs s)) /\
    forall r', fst (feed r bs s) = Ok r' -> rx_wf r'.
Proof.
  induction bs as [|b bs IH]; intros r s Hwf.
  - split; [apply adds_unsigned_refl|].
    intros r' E. injection E as <-. exact Hwf.
  - cbn [feed]. unfold bind.
    destruct (step_unsigned r b s Hwf) as [H1 H2].
    destruct (step r b s) as [[r1|e] s1]; cbn [fst snd] in *.
    + destruct (IH r1 s1 (H2 r1 eq_refl)) as [H3 H4].
      split; [eapply adds_unsigned_trans; eassumption|exact H4].
    + split; [exact H1|discriminate].
Qed.

(** ** [disconnect] and the socket *)

Lemma disconnect_eq (s : RCON) :
  disconnect s =
  match sock s with
  | None => (Ok false, s)
  | Some k =>
    if can_shut_down k then
      (Ok true,
       with_printer
         (printer s ++ [{| line_msg := MsgDisconnected; line_id := None;
                           line_type := None |}])
         (with_sock
            (Some {| sock_connected := sock_connected k; sock_shut := true;
                     sock_closed := true; sock_sent := sock_sent k |})
            s))
    else (Ok false, s)
  end.
Proof.
  unfold disconnect, try_except, bind, sock_shutdown, sock_close, sock_attr,
    bind, raise, ret.
  destruct (sock s) as [k|] eqn:E; [|reflexivity].
  destruct (can_shut_down k) eqn:Ec; [|reflexivity].
  cbn. reflexivity.
Qed.

Lemma disconnect_responsed_to (s : RCON) :
  responsed_to (snd (disconnect s)) = responsed_to s.
Proof.
  rewrite disconnect_eq. destruct (sock s) as [k|]; [|reflexivity].
  destruct (can_shut_down k); reflexivity.
Qed.

Lemma disconnect_never_raises (s : RCON) :
  exists b s', disconnect s = (Ok b, s').
Proof.
  rewrite disconnect_eq. destruct (sock s) as [k|]; [|eauto].
  destruct (can_shut_down k); eauto.
Qed.

Lemma reception_turn_nil (r : rx) (s : RCON) :
  reception_turn r [] s =
  (closed <- disconnect ;;
   (if closed then print_with_prefix MsgPeerClosed None None else ret tt) ;;;
   print_with_prefix MsgReceptionClosed None None ;;; ret Returned) s.
Proof. reflexivity. Qed.

(** A zero-length read always ends the loop. *)
Lemma reception_turn_nil_returned (r : rx) (s : RCON) :
  fst (reception_turn r [] s) = Ok Returned.
Proof.
  rewrite reception_turn_nil. unfold bind.
  destruct (disconnect_never_raises s) as (b & s' & E). rewrite E.
  destruct b; reflexivity.
Qed.

Lemma reception_turn_responsed_to_closed (r : rx) (s : RCON) :
  responsed_to (snd (reception_turn r [] s)) = responsed_to s.
Proof.
  rewrite reception_turn_nil.
  unfold bind. pose proof (disconnect_responsed_to s) as H.
  destruct (disconnect s) as [[[|]|e] s1]; cbn [snd] in *; exact H.
Qed.

Lemma reception_turn_unsigned (r : rx) (buf : list byte) (s : RCON) :
  rx_wf r ->
  adds_unsigned s (snd (reception_turn r buf s)) /\
  forall r', fst (reception_turn r buf s) = Ok (Reading r') -> rx_wf r'.
Proof.
  intros Hwf. destruct buf as [|b buf].
  - split.
    + exists []. rewrite reception_turn_responsed_to_closed. cbn.
      rewrite app_nil_r. split; [reflexivity|constructor].
    + rewrite reception_turn_nil_returned. discriminate.
  - destruct (feed_unsigned (b :: buf) r s Hwf) as [H1 H2].
    destruct (reception_turn_cases r b buf s)
      as [(e & s1 & Ef & Et)|[(r1 & s1 & Ef & Er & Et)
                              |(r1 & s1 & Ef & Er & Et)]];
      rewrite Ef in *; rewrite Et; cbn [fst snd] in *.
    + split; [exact H1|discriminate].
    + split; [exact H1|]. intros r' E. injection E as <-. now apply H2.
    + split; [exact H1|discriminate].
Qed.

Lemma reception_from_unsigned (recvs : list (list byte)) :
  forall r s, rx_wf r -> adds_unsigned s (snd (reception_from r recvs s)).
Proof.
  induction recvs as [|buf recvs IH]; intros r s Hwf.
  - apply adds_unsigned_refl.
  - rewrite reception_from_cons. unfold bind.
    destruct (reception_turn_unsigned r buf s Hwf) as [H1 H2].
    destruct (reception_turn r buf s) as [[[r1|]|e] s1]; cbn [fst snd] in *.
    + eapply adds_unsigned_trans; [exact H1|]. apply IH. now apply H2.
    + exact H1.
    + exact H1.
Qed.

Lemma rx_init_wf : rx_wf rx_init.
Proof. left. cbn. lia. Qed.

(** C10: the encoder raises OverflowError whenever the id, the type or the
    computed size is negative or at least 2 ^ 32 (and raises in any case
    when the id or the type is); a 4-byte field is read as an unsigned
    little-endian value, below 2 ^ 32; every id the reception loop adds to
    the responded ids is such a value; the wire id FF FF FF FF is recorded
    as 4294967295, and -1 is not recorded. *)
Theorem fields_are_unsigned :
  (forall (i t : Z) (b : str) (bb : list byte),
      utf8_encode b = Some bb ->
      i < 0 \/ 2 ^ 32 <= i \/ t < 0 \/ 2 ^ 32 <= t \/
      len bb + 10 < 0 \/ 2 ^ 32 <= len bb + 10 ->
      build_packet i t b = Raise OverflowError)
  /\ (forall (i t : Z) (b : str),
         i < 0 \/ 2 ^ 32 <= i \/ t < 0 \/ 2 ^ 32 <= t ->
         exists e, build_packet i t b = Raise e)
  /\ (forall (f1 f2 f3 : list byte) (s : RCON),
         length f1 = 4%nat -> length f2 = 4%nat -> length f3 = 4%nat ->
         feed rx_init (f1 ++ f2 ++ f3) s =
         (Ok {| state := 3; cur_item := [];
                cur_struct := {| size := Some (int_from_bytes f1);
                                 pack_id := Some (int_from_bytes f2);
                                 pack_type := Some (int_from_bytes f3);
                                 body := None |} |}, s)
         /\ 0 <= int_from_bytes f1 < 2 ^ 32
         /\ 0 <= int_from_bytes f2 < 2 ^ 32
         /\ 0 <= int_from_bytes f3 < 2 ^ 32)
  /\ (forall (recvs : list (list byte)) (s : RCON),
         exists ids,
           responsed_to (snd (reception recvs s)) =
           responsed_to s ++ map Some ids /\
           Forall (fun i => 0 <= i < 2 ^ 32) ids)
  /\ responsed_to (snd (reception [auth_failure_bytes] new_session)) =
     [Some 4294967295]
  /\ is_responded (snd (reception [auth_failure_bytes] new_session))
       4294967295 = true
  /\ is_responded (snd (reception [auth_failure_bytes] new_session)) (-1)
     = false.
Proof.
  split; [|split; [|split; [|split; [|repeat split]]]].
  - intros i t b bb Hb H. unfold build_packet, str_encode.
    rewrite Hb. cbn [res_bind]. fold (len bb).
    destruct (Z_lt_le_dec (len bb + 10) 0) as [|H0];
      [rewrite int_to_bytes_overflow by (left; assumption); reflexivity|].
    destruct (Z_lt_le_dec (len bb + 10) (2 ^ 32)) as [H1|];
      [|rewrite int_to_bytes_overflow
          by (right; change (8 * Z.of_nat 4) with 32; assumption);
        reflexivity].
    rewrite (int_to_bytes_ok (len bb + 10))
      by (change (8 * Z.of_nat 4) with 32; lia).
    cbn [res_bind].
    destruct (Z_lt_le_dec i 0) as [|Hi0];
      [rewrite int_to_bytes_overflow by (left; assumption); reflexivity|].
    destruct (Z_lt_le_dec i (2 ^ 32)) as [Hi1|];
      [|rewrite int_to_bytes_overflow
          by (right; change (8 * Z.of_nat 4) with 32; assumption);
        reflexivity].
    rewrite (int_to_bytes_ok i) by (change (8 * Z.of_nat 4) with 32; lia).
    cbn [res_bind].
    rewrite int_to_bytes_overflow; [reflexivity|].
    change (8 * Z.of_nat 4) with 32. lia.
  - intros i t b H.
    destruct (build_packet i t b) as [data|e] eqn:E; [|eauto].
    apply build_packet_inv in E. destruct E as (bb & _ & _ & Hi & Ht & _). lia.
  - intros f1 f2 f3 s H1 H2 H3. split.
    + unfold rx_init.
      rewrite (feed_app_ok _ _ _ _ _ _ (feed_size _ _ _ H1)).
      rewrite (feed_app_ok _ _ _ _ _ _ (feed_id _ _ _ H2)).
      rewrite (feed_type _ _ _ H3). reflexivity.
    + repeat split; apply int_from_bytes_4; unfold len; lia.
  - intros recvs s. destruct (running s) eqn:Hr.
    + rewrite (reception_running recvs s Hr).
      apply (reception_from_unsigned recvs rx_init s rx_init_wf).
    + unfold reception, reception_of, bind.
      rewrite (reception_test_stopped rx_init s Hr).
      exists []. cbn. rewrite app_nil_r. split; [reflexivity|constructor].
Qed.

Lemma fields_are_unsigned_witness :
  build_packet (-1) 2 hunter2 = Raise OverflowError
  /\ (exists e, build_packet 50 4294967296 hunter2 = Raise e)
  /\ feed rx_init
       ([x0a; x00; x00; x00] ++ [xff; xff; xff; xff] ++ [x02; x00; x00; x00])
       new_session =
     (Ok {| state := 3; cur_item := [];
            cur_struct :=
              {| size := Some (int_from_bytes [x0a; x00; x00; x00]);
                 pack_id := Some (int_from_bytes [xff; xff; xff; xff]);
                 pack_type := Some (int_from_bytes [x02; x00; x00; x00]);
                 body := None |} |}, new_session)
  /\ 0 <= int_from_bytes [xff; xff; xff; xff] < 2 ^ 32.
Proof.
  split; [|split; [|split]].
  - apply (proj1 fields_are_unsigned (-1) 2 hunter2
             [x68; x75; x6e; x74; x65; x72; x32]).
    + reflexivity.
    + left. lia.
  - apply (proj1 (proj2 fields_are_unsigned) 50 4294967296 hunter2).
    right. right. right. lia.
  - apply (proj1 (proj2 (proj2 fields_are_unsigned))
             [x0a; x00; x00; x00] [xff; xff; xff; xff] [x02; x00; x00; x00]
             new_session); reflexivity.
  - apply (proj1 (proj2 (proj2 fields_are_unsigned))
             [x0a; x00; x00; x00] [xff; xff; xff; xff] [x02; x00; x00; x00]
             new_session); reflexivity.
Defined.

(** C6: [disconnect] never raises; it returns [true] exactly when the
    session holds a socket that is connected and not closed (shut down
    already or not), and then it has shut it down, closed it and printed
    its line; it returns [false], changing nothing, when the socket was
    already closed or never connected, or the session holds none; called
    again after any call, it returns [false]. *)
Theorem disconnect_reports :
  (forall s : RCON,
      exists (b : bool) (s' : RCON),
        disconnect s = (Ok b, s')
        /\ (b = true <-> exists k, sock s = Some k /\ can_shut_down k = true)
        /\ (b = true ->
            exists k, sock s = Some k
                      /\ sock s' = Some {| sock_connected := sock_connected k;
                                           sock_shut := true;
                                           sock_closed := true;
                                           sock_sent := sock_sent k |}
                      /\ printer s' =
                         printer s ++ [{| line_msg := MsgDisconnected;
                                          line_id := None;
                                          line_type := None |}])
        /\ (b = false -> s' = s)
        /\ disconnect s' = (Ok false, s'))
  /\ (forall (rcon_ip : str) (rcon_port : Z) (rcon_password : str),
         disconnect (RCON_init rcon_ip rcon_port rcon_password) =
         (Ok false, RCON_init rcon_ip rcon_port rcon_password))
  /\ (forall (s : RCON) (k : socket),
         sock s = Some k -> sock_closed k = true ->
         disconnect s = (Ok false, s))
  /\ (forall (s : RCON) (k : socket),
         sock s = Some k -> sock_connected k = false ->
         disconnect s = (Ok false, s))
  /\ (forall (s : RCON) (k : socket),
         sock s = Some k -> sock_connected k = true ->
         sock_closed k = false -> sock_shut k = true ->
         fst (disconnect s) = Ok true).
Proof.
  split; [|split; [reflexivity|split; [|split]]].
  - intros s. rewrite disconnect_eq.
    destruct (sock s) as [k|] eqn:Es.
    + destruct (can_shut_down k) eqn:Eu.
      * eexists true, _. split; [reflexivity|].
        split; [|split; [|split]].
        -- split; intros _; [exists k; auto|reflexivity].
        -- intros _. exists k. repeat split.
        -- discriminate.
        -- rewrite disconnect_eq. cbn [sock with_printer with_sock].
           unfold can_shut_down. cbn [sock_closed]. rewrite andb_false_r.
           reflexivity.
      * exists false, s. split; [reflexivity|].
        split; [|split; [|split]].
        -- split; [discriminate|]. intros (k' & Ek & Hu). congruence.
        -- discriminate.
        -- reflexivity.
        -- rewrite disconnect_eq, Es, Eu. reflexivity.
    + exists false, s. split; [reflexivity|].
      split; [|split; [|split]].
      * split; [discriminate|]. intros (k' & Ek & _). congruence.
      * discriminate.
      * reflexivity.
      * rewrite disconnect_eq, Es. reflexivity.
  - intros s k Es Ec. rewrite disconnect_eq, Es. unfold can_shut_down.
    rewrite Ec, andb_false_r. reflexivity.
  - intros s k Es Ec. rewrite disconnect_eq, Es. unfold can_shut_down.
    rewrite Ec. reflexivity.
  - intros s k Es Ec Ecl Esh. rewrite disconnect_eq, Es. unfold can_shut_down.
    rewrite Ec, Ecl. reflexivity.
Qed.

Lemma disconnect_reports_witness :
  disconnect
    (with_sock
       (Some {| sock_connected := true; sock_shut := true;
                sock_closed := true; sock_sent := [] |}) new_session) =
  (Ok false,
   with_sock
     (Some {| sock_connected := true; sock_shut := true;
              sock_closed := true; sock_sent := [] |}) new_session)
  /\ fst (disconnect
            (with_sock
               (Some {| sock_connected := true; sock_shut := true;
                        sock_closed := false; sock_sent := [] |})
               new_session)) = Ok true.
Proof.
  split.
  - apply (proj1 (proj2 (proj2 disconnect_reports))
             (with_sock
                (Some {| sock_connected := true; sock_shut := true;
                         sock_closed := true; sock_sent := [] |}) new_session)
             {| sock_connected := true; sock_shut := true;
                sock_closed := true; sock_sent := [] |}).
    + reflexivity.
    + reflexivity.
  - apply (proj2 (proj2 (proj2 (proj2 disconnect_reports)))
             (with_sock
                (Some {| sock_connected := true; sock_shut := true;
                         sock_closed := false; sock_sent := [] |})
                new_session)
             {| sock_connected := true; sock_shut := true;
                sock_closed := false; sock_sent := [] |}).
    + reflexivity.
    + reflexivity.
    + reflexivity.
    + reflexivity.
Defined.

Lemma send_cmd_eq (o : send_outcome) (i : Z) (c : str) (s : RCON) :
  send_cmd o i c s =
  match sock s with
  | None => (Raise AttributeError, s)
  | Some k =>
    match build_packet i SERVERDATA_EXECCOMMAND c with
    | Raise e => (Raise e, s)
    | Ok data =>
      if usable k then
        match o with
        | Fails => (Raise OSError, s)
        | Accepts n =>
          (Ok tt,
           with_printer
             (printer s ++ [{| line_msg := MsgSentCommand c; line_id := None;
                               line_type := None |}])
             (with_sock
                (Some {| sock_connected := sock_connected k;
                         sock_shut := sock_shut k; sock_closed := sock_closed k;
                         sock_sent := sock_sent k ++ firstn n data |})
                s))
        end
      else (Raise OSError, s)
    end
  end.
Proof.
  unfold send_cmd, sock_send, sock_attr, bind, lift, raise.
  destruct (sock s) as [k|] eqn:Es; [|reflexivity].
  destruct (build_packet i SERVERDATA_EXECCOMMAND c) as [data|e];
    [|reflexivity].
  rewrite Es.
  destruct (usable k); [|reflexivity].
  destruct o; reflexivity.
Qed.

(** C5, as stated, fails: on a connected session whose transport takes 5
    bytes, [send_cmd 69 "saveworld"] returns normally with 5 of the 23
    bytes of the packet written and no failure surfaced. *)
Lemma send_cmd_partial_write :
  build_packet 69 SERVERDATA_EXECCOMMAND saveworld =
  Ok [x13; x00; x00; x00; x45; x00; x00; x00; x02; x00; x00; x00;
      x73; x61; x76; x65; x77; x6f; x72; x6c; x64; x00; x00]
  /\ usable open_socket = true
  /\ sock connected_session = Some open_socket
  /\ fst (send_cmd (Accepts 5) 69 saveworld connected_session) = Ok tt
  /\ sock (snd (send_cmd (Accepts 5) 69 saveworld connected_session)) =
     Some {| sock_connected := true; sock_shut := false; sock_closed := false;
             sock_sent := [x13; x00; x00; x00; x45] |}.
Proof. repeat split. Qed.

(** C5 (amended): [send_cmd] hands the encoded SERVERDATA_EXECCOMMAND
    packet to one [send] call of the socket and does not look at the count
    it returns.  When [send_cmd] raises, the session is unchanged: nothing
    was written.  When it returns, the socket was usable and the bytes
    written are the prefix of the packet that the transport took - the whole
    packet when the transport took that many.  It raises when the socket is
    closed, when the session was never connected, and when the transport
    fails. *)
Theorem send_cmd_outcome (o : send_outcome) (i : Z) (c : str) (s : RCON) :
  (forall e s', send_cmd o i c s = (Raise e, s') -> s' = s)
  /\ (forall s', send_cmd o i c s = (Ok tt, s') ->
        exists k data n,
          sock s = Some k /\ usable k = true
          /\ build_packet i SERVERDATA_EXECCOMMAND c = Ok data
          /\ o = Accepts n
          /\ sock s' = Some {| sock_connected := sock_connected k;
                               sock_shut := sock_shut k;
                               sock_closed := sock_closed k;
                               sock_sent := sock_sent k ++ firstn n data |}
          /\ ((length data <= n)%nat ->
              sock s' = Some {| sock_connected := sock_connected k;
                                sock_shut := sock_shut k;
                                sock_closed := sock_closed k;
                                sock_sent := sock_sent k ++ data |}))
  /\ (forall k, sock s = Some k -> sock_closed k = true ->
        exists e, send_cmd o i c s = (Raise e, s))
  /\ (sock s = None -> send_cmd o i c s = (Raise AttributeError, s))
  /\ (o = Fails -> exists e, send_cmd o i c s = (Raise e, s)).
Proof.
  rewrite send_cmd_eq.
  destruct (sock s) as [k|] eqn:Es.
  2:{ repeat split; try discriminate.
      - intros e s' E. congruence.
      - eauto. }
  destruct (build_packet i SERVERDATA_EXECCOMMAND c) as [data|e0] eqn:Eb.
  2:{ repeat split; try discriminate; eauto.
      intros e s' E. congruence. }
  destruct (usable k) eqn:Eu.
  2:{ repeat split; try discriminate; eauto. intros e s' E; congruence. }
  destruct o as [n|].
  2:{ repeat split; try discriminate; eauto. intros e s' E. congruence. }
  repeat split; try discriminate.
  - intros s' E. injection E as <-. exists k, data, n.
    cbn [sock with_printer with_sock].
    split; [reflexivity|]. split; [exact Eu|].
    do 3 (split; [reflexivity|]).
    intros Hn. rewrite firstn_all2 by exact Hn. reflexivity.
  - intros k' E1 E2. injection E1 as <-. unfold usable in Eu.
    rewrite E2, andb_false_r in Eu. discriminate.
Qed.

Lemma send_cmd_outcome_witness :
  exists e,
    send_cmd (Accepts 23) 69 saveworld
      (with_sock
         (Some {| sock_connected := true; sock_shut := true;
                  sock_closed := true; sock_sent := [] |}) new_session) =
    (Raise e,
     with_sock
       (Some {| sock_connected := true; sock_shut := true;
                sock_closed := true; sock_sent := [] |}) new_session).
Proof.
  apply (proj1 (proj2 (proj2
           (send_cmd_outcome (Accepts 23) 69 saveworld
              (with_sock
                 (Some {| sock_connected := true; sock_shut := true;
                          sock_closed := true; sock_sent := [] |})
                 new_session))))
           {| sock_connected := true; sock_shut := true;
              sock_closed := true; sock_sent := [] |}).
  - reflexivity.
  - reflexivity.
Defined.

(** ** The responded ids *)

Lemma connect_start_responsed_to (conn_ok : bool) (o : send_outcome)
      (s : RCON) :
  responsed_to (snd (connect_start conn_ok o s)) = responsed_to s.
Proof.
  unfold connect_start, bind, sock_connect, sock_send, sock_attr, bind, lift,
    raise, ret, print_with_prefix.
  destruct conn_ok; [|reflexivity]. cbn.
  destruct (build_packet 50 SERVERDATA_AUTH (password s)); [|reflexivity].
  destruct o; reflexivity.
Qed.

Lemma reception_turn_responsed_to (r : rx) (buf : list byte) (s : RCON) :
  exists ids,
    responsed_to (snd (reception_turn r buf s)) = responsed_to s ++ ids.
Proof.
  destruct buf as [|b buf].
  - exists []. rewrite reception_turn_responsed_to_closed.
    now rewrite app_nil_r.
  - pose proof (feed_extends (b :: buf) r s) as H.
    destruct (reception_turn_cases r b buf s)
      as [(e & s1 & Ef & Et)|[(r1 & s1 & Ef & Er & Et)
                              |(r1 & s1 & Ef & Er & Et)]];
      rewrite Ef in H; rewrite Et; cbn [snd] in *; apply H.
Qed.

Lemma reception_test_responsed_to (r : rx) (s : RCON) :
  responsed_to (snd (reception_test r s)) = responsed_to s.
Proof. unfold reception_test. destruct (running s); reflexivity. Qed.

Lemma reception_step_responsed_to (r : rx) (x : recv_result) (s : RCON) :
  exists ids,
    responsed_to (snd (reception_step r x s)) = responsed_to s ++ ids.
Proof.
  destruct x as [buf|e].
  - apply (reception_turn_responsed_to r buf s).
  - exists []. cbn. now rewrite app_nil_r.
Qed.

Lemma perform_responsed_to (a : action) (s : RCON) :
  exists ids, responsed_to (perform a s) = responsed_to s ++ ids.
Proof.
  destruct a as [i| |v|o i c| |ok o|r|r x]; cbn [perform].
  - exists []. now rewrite app_nil_r.
  - exists []. now rewrite app_nil_r.
  - exists []. cbn. now rewrite app_nil_r.
  - exists []. rewrite app_nil_r, send_cmd_eq.
    destruct (sock s) as [k|]; [|reflexivity].
    destruct (build_packet i SERVERDATA_EXECCOMMAND c); [|reflexivity].
    destruct (usable k); [|reflexivity].
    destruct o; reflexivity.
  - exists []. now rewrite app_nil_r, disconnect_responsed_to.
  - exists []. now rewrite app_nil_r, connect_start_responsed_to.
  - exists []. now rewrite app_nil_r, reception_test_responsed_to.
  - apply reception_step_responsed_to.
Qed.

Lemma perform_all_responsed_to (acts : list action) :
  forall s, exists ids, responsed_to (perform_all acts s) = responsed_to s ++ ids.
Proof.
  induction acts as [|a acts IH]; intros s.
  - exists []. cbn. now rewrite app_nil_r.
  - cbn [perform_all fold_left]. fold (perform_all acts (perform a s)).
    destruct (IH (perform a s)) as (i2 & E2).
    destruct (perform_responsed_to a s) as (i1 & E1).
    exists (i1 ++ i2). rewrite E2, E1, app_assoc. reflexivity.
Qed.

Lemma is_responded_app (s s' : RCON) (ids : list (option Z)) (i : Z) :
  responsed_to s' = responsed_to s ++ ids ->
  is_responded s i = true -> is_responded s' i = true.
Proof.
  unfold is_responded. intros -> H. rewrite existsb_app, H. reflexivity.
Qed.

Lemma is_responded_In (s : RCON) (i : Z) :
  is_responded s i = true <-> In (Some i) (responsed_to s).
Proof.
  unfold is_responded. rewrite existsb_exists. split.
  - intros ([x|] & Hin & Heq); cbn in Heq; [|discriminate].
    apply Z.eqb_eq in Heq. now subst.
  - intros H. exists (Some i). split; [exact H|]. cbn. apply Z.eqb_refl.
Qed.

(** C7: every operation on a session only appends to the responded ids, so
    once [is_responded] is true for an id it stays true after any further
    operations; and after [send_cmd] with ids 60 and 61, once the replies
    to both have been parsed, in either order, [is_responded] is true for
    both. *)
Theorem responded_ids_append_only :
  (forall (acts : list action) (s : RCON),
      exists ids, responsed_to (perform_all acts s) = responsed_to s ++ ids)
  /\ (forall (acts : list action) (s : RCON) (i : Z),
         is_responded s i = true ->
         is_responded (perform_all acts s) i = true)
  /\ (forall (s : RCON) (o1 o2 : send_outcome) (c1 c2 : str)
             (t1 t2 : Z) (b1 b2 : str) (d60 d61 stream : list byte),
         build_packet 60 t1 b1 = Ok d60 ->
         build_packet 61 t2 b2 = Ok d61 ->
         stream = d60 ++ d61 \/ stream = d61 ++ d60 ->
         let s2 := perform_all [DoSendCmd o1 60 c1; DoSendCmd o2 61 c2] s in
         let s3 := snd (feed rx_init stream s2) in
         is_responded s3 60 = true /\ is_responded s3 61 = true).
Proof.
  split; [|split].
  - intros acts s. apply perform_all_responsed_to.
  - intros acts s i H.
    destruct (perform_all_responsed_to acts s) as (ids & E).
    exact (is_responded_app s _ ids i E H).
  - intros s o1 o2 c1 c2 t1 t2 b1 b2 d60 d61 stream H60 H61 Hs s2 s3.
    set (p60 := {| p_id := 60; p_type := t1; p_body := b1 |}).
    set (p61 := {| p_id := 61; p_type := t2; p_body := b2 |}).
    assert (E60 : encode p60 = Ok d60) by exact H60.
    assert (E61 : encode p61 = Ok d61) by exact H61.
    destruct Hs as [-> | ->].
    + destruct (feed_packets [p60; p61] [d60; d61] s2) as (s' & Hf & _ & Hr & _).
      { repeat constructor; assumption. }
      cbn [concat] in Hf. rewrite app_nil_r in Hf.
      unfold s3. rewrite Hf. cbn [snd].
      split; apply is_responded_In; rewrite Hr; apply in_or_app; right;
        cbn; auto.
    + destruct (feed_packets [p61; p60] [d61; d60] s2) as (s' & Hf & _ & Hr & _).
      { repeat constructor; assumption. }
      cbn [concat] in Hf. rewrite app_nil_r in Hf.
      unfold s3. rewrite Hf. cbn [snd].
      split; apply is_responded_In; rewrite Hr; apply in_or_app; right;
        cbn; auto.
Qed.

Lemma responded_ids_append_only_witness :
  is_responded
    (perform_all
       [DoDisconnect; DoSetRunning false;
        DoReceive rx_init (Recv ok_reply_bytes)]
       (with_responsed_to [Some 50] connected_session)) 50 = true
  /\ is_responded
       (snd (feed rx_init (auth_reply_bytes ++ ok_reply_bytes)
               (perform_all [DoSendCmd (Accepts 23) 50 saveworld;
                             DoSendCmd Fails 60 saveworld]
                  connected_session))) 60 = true.
Proof.
  split.
  - apply (proj1 (proj2 responded_ids_append_only)). reflexivity.
  - reflexivity.
Defined.

(** ** The wait loop of [connect] *)

Lemma reception_from_app (a : list (list byte)) :
  forall r b s,
    reception_from r (a ++ b) s =
    (o <- reception_from r a ;;
     match o with
     | Reading r' => reception_from r' b
     | Returned => ret Returned
     end) s.
Proof.
  induction a as [|buf a IH]; intros r b s.
  - reflexivity.
  - cbn [app]. unfold bind. rewrite !reception_from_cons. unfold bind.
    destruct (reception_turn r buf s) as [[[r1|]|e] s1]; try reflexivity.
    rewrite IH. reflexivity.
Qed.

Lemma thread_run_app (a b : list (list byte)) (w : world) :
  thread_run (a ++ b) w = thread_run b (thread_run a w).
Proof.
  unfold thread_run. destruct (w_thread w) as [r|] eqn:Et.
  - rewrite reception_from_app. unfold bind.
    destruct (reception_from r a (w_self w)) as [[[r1|]|e] s1];
      cbn [w_thread w_self w_slept]; reflexivity.
  - rewrite Et. reflexivity.
Qed.

Lemma thread_run_sleep (recvs : list (list byte)) (w : world) :
  thread_run recvs (sleep_200ms w) = sleep_200ms (thread_run recvs w).
Proof.
  unfold thread_run, sleep_200ms. cbn [w_thread w_self w_slept].
  destruct (w_thread w) as [r|] eqn:Et; [|rewrite Et; reflexivity].
  destruct (reception_from r recvs (w_self w)) as [[[r1|]|e] s1]; reflexivity.
Qed.

Lemma polled_self (env : nat -> list (list byte)) (n : nat) :
  forall k w, w_self (polled env k n w) = w_self (thread_run (reads env k n) w).
Proof.
  induction n as [|n IH]; intros k w.
  - reflexivity.
  - cbn [polled reads]. rewrite IH, thread_run_app, !thread_run_sleep.
    reflexivity.
Qed.

Lemma polled_slept (env : nat -> list (list byte)) (n : nat) :
  forall k w, w_slept (polled env k n w) = w_slept w + 200 * Z.of_nat n.
Proof.
  assert (Hrun : forall recvs w, w_slept (thread_run recvs w) = w_slept w).
  { intros recvs w. unfold thread_run. destruct (w_thread w) as [r|];
      [|reflexivity].
    destruct (reception_from r recvs (w_self w)) as [[[r1|]|e] s1];
      reflexivity. }
  induction n as [|n IH]; intros k w.
  - cbn [polled]. rewrite Hrun. lia.
  - cbn [polled]. rewrite IH. unfold sleep_200ms. cbn [w_slept].
    rewrite Hrun. lia.
Qed.

Lemma auth_wait_some (env : nat -> list (list byte)) (fuel : nat) :
  forall k w w',
    auth_wait fuel env k w = Some w' ->
    is_responded (w_self w') 50 = true /\
    exists n,
      (n <= fuel)%nat /\ w' = polled env k n w /\
      forall j, (j < n)%nat ->
                is_responded (w_self (polled env k j w)) 50 = false.
Proof.
  induction fuel as [|f IH]; intros k w w' H; cbn [auth_wait] in H.
  - destruct (is_responded (w_self (thread_run (env k) w)) 50) eqn:E;
      [|discriminate].
    injection H as <-. split; [exact E|]. exists 0%nat.
    repeat split; [lia|]. intros j Hj. lia.
  - destruct (is_responded (w_self (thread_run (env k) w)) 50) eqn:E.
    + injection H as <-. split; [exact E|]. exists 0%nat.
      repeat split; [lia|]. intros j Hj. lia.
    + destruct (IH _ _ _ H) as (Hr & n & Hn & Hw & Hbefore).
      split; [exact Hr|]. exists (S n). repeat split; [lia|exact Hw|].
      intros [|j] Hj; [exact E|]. apply Hbefore. lia.
Qed.

Lemma auth_wait_none (env : nat -> list (list byte)) (fuel : nat) :
  forall k w,
    (forall n, is_responded (w_self (polled env k n w)) 50 = false) ->
    auth_wait fuel env k w = None.
Proof.
  induction fuel as [|f IH]; intros k w H; cbn [auth_wait].
  - pose proof (H 0%nat) as H0. cbn [polled] in H0. rewrite H0. reflexivity.
  - pose proof (H 0%nat) as H0. cbn [polled] in H0. rewrite H0.
    apply IH. intros n. exact (H (S n)).
Qed.

(** The ids that a run of the reception loop adds are those that the
    parser adds on some beginning of the bytes read. *)
Lemma reception_ids_prefix (recvs : list (list byte)) :
  forall r s,
    exists bs rest,
      concat recvs = bs ++ rest /\
      responsed_to (snd (reception_from r recvs s)) =
      responsed_to (snd (feed r bs s)).
Proof.
  induction recvs as [|buf recvs IH]; intros r s.
  - exists [], []. split; reflexivity.
  - rewrite reception_from_cons. cbn [concat]. unfold bind.
    destruct buf as [|b buf].
    + exists [], (concat recvs). split; [reflexivity|].
      pose proof (reception_turn_responsed_to_closed r s) as H.
      pose proof (reception_turn_nil_returned r s) as Hret.
      destruct (reception_turn r [] s) as [[[r1|]|e] s1];
        cbn [fst snd] in *; try exact H.
      discriminate.
    + destruct (reception_turn_cases r b buf s)
        as [(e & s1 & Ef & Et)|[(r1 & s1 & Ef & Er & Et)
                                |(r1 & s1 & Ef & Er & Et)]]; rewrite Et.
      * exists (b :: buf), (concat recvs). split; [reflexivity|].
        rewrite Ef. reflexivity.
      * destruct (IH r1 s1) as (bs & rest & Hc & Hr).
        exists ((b :: buf) ++ bs), rest. split.
        -- rewrite Hc, app_assoc. reflexivity.
        -- rewrite (feed_app_ok _ bs _ _ _ _ Ef). exact Hr.
      * exists (b :: buf), (concat recvs). split; [reflexivity|].
        rewrite Ef. reflexivity.
Qed.

Lemma feed_app_inv (a b : list byte) (r r2 : rx) (s s2 : RCON) :
  feed r (a ++ b) s = (Ok r2, s2) ->
  exists r1 s1, feed r a s = (Ok r1, s1) /\ feed r1 b s1 = (Ok r2, s2).
Proof.
  rewrite feed_app. unfold bind.
  destruct (feed r a s) as [[r1|e] s1]; [eauto|discriminate].
Qed.

Lemma never_replies_not_responded (env : nat -> list (list byte))
      (n : nat) (s : RCON) :
  never_replies_to_auth env -> is_responded s 50 = false ->
  is_responded
    (w_self (polled env 0 n
               {| w_self := s; w_thread := Alive rx_init; w_slept := 0 |}))
    50 = false.
Proof.
  intros Hnever H0.
  destruct (is_responded
              (w_self (polled env 0 n
                         {| w_self := s; w_thread := Alive rx_init;
                            w_slept := 0 |})) 50) eqn:E;
    [exfalso|reflexivity].
  apply is_responded_In in E.
  rewrite polled_self in E. unfold thread_run in E.
  cbn [w_thread w_self] in E.
  assert (E' : In (Some 50)
                 (responsed_to (snd (reception_from rx_init (reads env 0 n) s)))).
  { destruct (reception_from rx_init (reads env 0 n) s) as [[[r1|]|e] s1];
      exact E. }
  clear E.
  destruct (reception_ids_prefix (reads env 0 n) rx_init s)
    as (bs & rest & Hc & Hr).
  rewrite Hr in E'.
  destruct (Hnever n) as (pkts & datas & more & Henc & Hids & Hstream).
  destruct (feed_packets pkts datas s Henc) as (s' & Hf & _ & Hre & _).
  rewrite <- Hstream, Hc, <- app_assoc in Hf.
  apply feed_app_inv in Hf. destruct Hf as (r1 & s1 & Hf1 & Hf2).
  rewrite Hf1 in E'. cbn [snd] in E'.
  pose proof (feed_extends (rest ++ more) r1 s1) as Hext.
  rewrite Hf2 in Hext. destruct Hext as (_ & _ & _ & _ & _ & (ids & Hids') & _).
  cbn [snd] in Hids'.
  assert (Hin : In (Some 50) (responsed_to s')).
  { rewrite Hids'. apply in_or_app. left. exact E'. }
  rewrite Hre in Hin. apply in_app_or in Hin. destruct Hin as [Hin|Hin].
  - apply is_responded_In in Hin. congruence.
  - apply in_map_iff in Hin. destruct Hin as (p & Hp & Hin).
    rewrite Forall_forall in Hids. apply (Hids p Hin). congruence.
Qed.

Lemma thread_run_dead (recvs : list (list byte)) (w : world) :
  w_thread w = Dead -> thread_run recvs w = w.
Proof. intros H. unfold thread_run. rewrite H. reflexivity. Qed.

(** The thread of a session whose flag is set is blocked in its first
    [recv]; on a cleared flag it has printed its last line and ended. *)
Lemma thread_start_running (s : RCON) :
  running s = true ->
  thread_start s = {| w_self := s; w_thread := Alive rx_init; w_slept := 0 |}.
Proof.
  intros H. unfold thread_start.
  rewrite (reception_test_running rx_init s H). reflexivity.
Qed.

Lemma thread_start_stopped (s : RCON) :
  running s = false ->
  thread_start s =
  {| w_self :=
       with_printer
         (printer s ++ [{| line_msg := MsgReceptionClosed; line_id := None;
                           line_type := None |}]) s;
     w_thread := Dead; w_slept := 0 |}.
Proof.
  intros H. unfold thread_start.
  rewrite (reception_test_stopped rx_init s H). reflexivity.
Qed.

Lemma thread_start_slept (s : RCON) : w_slept (thread_start s) = 0.
Proof. unfold thread_start, reception_test. destruct (running s); reflexivity. Qed.

Lemma thread_start_responsed_to (s : RCON) :
  responsed_to (w_self (thread_start s)) = responsed_to s.
Proof. unfold thread_start, reception_test. destruct (running s); reflexivity. Qed.

Lemma never_replies_thread_start (env : nat -> list (list byte))
      (n : nat) (s : RCON) :
  never_replies_to_auth env -> is_responded s 50 = false ->
  is_responded (w_self (polled env 0 n (thread_start s))) 50 = false.
Proof.
  intros Hnever H0. destruct (running s) eqn:Hr.
  - rewrite (thread_start_running s Hr).
    now apply never_replies_not_responded.
  - rewrite (thread_start_stopped s Hr), polled_self, thread_run_dead;
      [exact H0|reflexivity].
Qed.

Lemma reads_other_reply (n : nat) :
  concat (reads other_reply_env 0 n) = ok_reply_bytes.
Proof.
  assert (H : forall m k, reads other_reply_env (S k) m = []).
  { induction m as [|m IH]; intros k; cbn [reads other_reply_env];
      [reflexivity|]. rewrite IH. reflexivity. }
  destruct n as [|n]; cbn [reads other_reply_env]; [reflexivity|].
  rewrite H. reflexivity.
Qed.

Lemma other_reply_never_auth : never_replies_to_auth other_reply_env.
Proof.
  intros n. exists [ok_reply], [ok_reply_bytes], [].
  split; [repeat constructor|]. split.
  - repeat constructor. discriminate.
  - rewrite reads_other_reply. reflexivity.
Qed.

(** C8: when [connect] returns, the id 50 is among the responded ids; it
    returns at the first poll of [is_responded(50)] that finds it there,
    after one sleep of 200 ms for each poll that did not.  Against a server
    that never replies to the auth packet, on a session that has not
    recorded the id 50, [connect] is still waiting after any number of
    sleeps and [is_responded(50)] is false at every poll. *)
Theorem connect_waits_for_auth :
  (forall (fuel : nat) (conn_ok : bool) (o : send_outcome)
          (env : nat -> list (list byte)) (s : RCON) (w : world),
      connect fuel conn_ok o env s = Some (ConnectReturned w) ->
      is_responded (w_self w) 50 = true /\
      exists n,
        (n <= fuel)%nat /\ w = polled env 0 n (waiting conn_ok o s) /\
        w_slept w = 200 * Z.of_nat n /\
        forall j, (j < n)%nat ->
          is_responded (w_self (polled env 0 j (waiting conn_ok o s))) 50
          = false)
  /\ (forall (conn_ok : bool) (o : send_outcome)
             (env : nat -> list (list byte)) (s : RCON),
         fst (connect_start conn_ok o s) = Ok tt ->
         is_responded s 50 = false ->
         never_replies_to_auth env ->
         (forall fuel, connect fuel conn_ok o env s = None) /\
         (forall n,
             is_responded (w_self (polled env 0 n (waiting conn_ok o s))) 50
             = false)).
Proof.
  split.
  - intros fuel conn_ok o env s w H. unfold connect in H.
    destruct (connect_start conn_ok o s) as [[[]|e] s0] eqn:Ec; [|discriminate].
    destruct (auth_wait fuel env 0 _) as [w'|] eqn:Ew; [|discriminate].
    injection H as <-.
    destruct (auth_wait_some env fuel 0 _ _ Ew) as (Hr & n & Hn & Hw & Hb).
    unfold waiting. rewrite Ec. cbn [snd].
    split; [exact Hr|]. exists n. repeat split; try assumption.
    rewrite Hw, polled_slept, thread_start_slept. lia.
  - intros conn_ok o env s Hstart H0 Hnever.
    assert (Hpolls : forall n,
               is_responded (w_self (polled env 0 n (waiting conn_ok o s))) 50
               = false).
    { intros n. apply never_replies_thread_start; [exact Hnever|].
      unfold is_responded in *. rewrite connect_start_responsed_to. exact H0. }
    split; [|exact Hpolls].
    intros fuel. unfold connect.
    destruct (connect_start conn_ok o s) as [[[]|e] s0] eqn:Ec;
      [|discriminate].
    rewrite (auth_wait_none env fuel 0); [reflexivity|].
    intros n. specialize (Hpolls n). unfold waiting in Hpolls.
    rewrite Ec in Hpolls. exact Hpolls.
Qed.

Lemma connect_waits_for_auth_witness :
  (is_responded
     (w_self (polled late_auth_env 0 2 (waiting true (Accepts 100) new_session)))
     50 = true
   /\ exists n,
        (n <= 5)%nat
        /\ polled late_auth_env 0 2 (waiting true (Accepts 100) new_session) =
           polled late_auth_env 0 n (waiting true (Accepts 100) new_session)
        /\ w_slept
             (polled late_auth_env 0 2 (waiting true (Accepts 100) new_session))
           = 200 * Z.of_nat n
        /\ forall j, (j < n)%nat ->
             is_responded
               (w_self (polled late_auth_env 0 j
                          (waiting true (Accepts 100) new_session))) 50
             = false)
  /\ connect 7 true (Accepts 100) other_reply_env new_session = None.
Proof.
  split.
  - apply (proj1 connect_waits_for_auth 5%nat true (Accepts 100)
             late_auth_env new_session).
    vm_compute. reflexivity.
  - apply (proj2 connect_waits_for_auth true (Accepts 100) other_reply_env
             new_session).
    + reflexivity.
    + reflexivity.
    + exact other_reply_never_auth.
Defined.

(** * Further properties of the parser and the encoder *)

Lemma extends_antisym (a b : RCON) : extends a b -> extends b a -> a = b.
Proof.
  intros (Hi & Hp & Hw & Hs & Hr & (i1 & E1) & (l1 & F1))
         (_ & _ & _ & _ & _ & (i2 & E2) & (l2 & F2)).
  assert (Hids : responsed_to b = responsed_to a).
  { rewrite E1 in E2. rewrite <- app_assoc in E2.
    rewrite <- (app_nil_r (responsed_to a)) in E2 at 1.
    apply app_inv_head in E2. symmetry in E2.
    apply app_eq_nil in E2. destruct E2 as [-> _].
    rewrite E1. apply app_nil_r. }
  assert (Hls : printer b = printer a).
  { rewrite F1 in F2. rewrite <- app_assoc in F2.
    rewrite <- (app_nil_r (printer a)) in F2 at 1.
    apply app_inv_head in F2. symmetry in F2.
    apply app_eq_nil in F2. destruct F2 as [-> _].
    rewrite F1. apply app_nil_r. }
  destruct a, b. cbn in *. congruence.
Qed.

(** The twelve header bytes bring the parser to the body state. *)
Lemma feed_header (fs fi ft rest : list byte) (s : RCON) :
  length fs = 4%nat -> length fi = 4%nat -> length ft = 4%nat ->
  feed rx_init (fs ++ fi ++ ft ++ rest) s =
  feed {| state := 3; cur_item := [];
          cur_struct := {| size := Some (int_from_bytes fs);
                           pack_id := Some (int_from_bytes fi);
                           pack_type := Some (int_from_bytes ft);
                           body := None |} |} rest s.
Proof.
  intros H1 H2 H3. unfold rx_init.
  rewrite (feed_app_ok _ _ _ _ _ _ (feed_size _ _ _ H1)).
  rewrite (feed_app_ok _ _ _ _ _ _ (feed_id _ _ _ H2)).
  rewrite (feed_app_ok _ _ _ _ _ _ (feed_type _ _ _ H3)).
  reflexivity.
Qed.

(** The whole body item, of [size - 9] bytes, from the start of the body
    state. *)
Lemma feed_body_item (item : list byte) (cs : PacketData) (sz : Z) (s : RCON) :
  size cs = Some sz -> item <> [] -> len item = sz - 9 ->
  feed {| state := 3; cur_item := []; cur_struct := cs |} item s =
  match utf8_decode item with
  | Some t =>
    (Ok {| state := 4; cur_item := [];
           cur_struct := {| size := size cs; pack_id := pack_id cs;
                            pack_type := pack_type cs; body := Some t |} |}, s)
  | None => (Raise UnicodeDecodeError, s)
  end.
Proof.
  intros Hsz Hne Hlen.
  destruct (exists_last Hne) as (ci & b & ->).
  rewrite len_app in Hlen. change (len [b]) with 1 in Hlen.
  erewrite (feed_app_ok ci);
    [|apply feed_body_more with (sz := sz);
      [exact Hsz | change (len []) with 0; lia]].
  cbn [app feed]. unfold bind.
  erewrite step_body_last; [|exact Hsz|lia].
  destruct (utf8_decode (ci ++ [b])); reflexivity.
Qed.

(** X1: the parser reports nothing before the last byte of a packet: after
    any beginning of an encoded packet that leaves at least one byte out,
    the session is unchanged, and the rest of the packet then completes the
    report. *)
Theorem no_report_before_last_byte (i t : Z) (b : str)
        (data p q : list byte) (s : RCON) :
  build_packet i t b = Ok data -> data = p ++ q -> q <> [] ->
  exists r,
    feed rx_init p s = (Ok r, s) /\
    exists s',
      feed r q s = (Ok rx_init, s') /\
      printer s' = printer s ++ [packet_line i t (b ++ [0])] /\
      responsed_to s' = responsed_to s ++ [Some i].
Proof.
  intros Hb Hd Hq.
  pose proof (feed_packet i t b data s Hb) as Hfull.
  apply build_packet_inv in Hb.
  destruct Hb as (bb & Hbb & Hs & Hi & Ht & Hdata).
  destruct (exists_last Hq) as (q' & z & ->).
  assert (Hinit : p ++ q' =
                  le_bytes 4 (len bb + 10) ++ le_bytes 4 i ++ le_bytes 4 t
                  ++ bb ++ [x00]).
  { assert (Hdi : data =
                   (le_bytes 4 (len bb + 10) ++ le_bytes 4 i ++ le_bytes 4 t
                    ++ bb ++ [x00]) ++ [x00]).
    { rewrite Hdata, <- !app_assoc. reflexivity. }
    rewrite Hdi, (app_assoc p q' [z]) in Hd.
    apply app_inj_tail in Hd. destruct Hd as [Hd _]. symmetry. exact Hd. }
  assert (Hquiet : exists r4,
             feed rx_init (p ++ q') s = (Ok r4, s)).
  { rewrite Hinit, feed_header by apply le_bytes_length.
    rewrite !int_from_le_bytes by (change (8 * Z.of_nat 4) with 32; lia).
    rewrite (feed_body_item (bb ++ [x00]) _ (len bb + 10));
      [|reflexivity|destruct bb; discriminate
       |rewrite len_app; change (len [x00]) with 1; lia].
    rewrite (utf8_decode_nul_terminated b bb Hbb). eauto. }
  destruct Hquiet as (r4 & Hq4).
  destruct (feed_app_inv _ _ _ _ _ _ Hq4) as (r1 & s1 & Hp & Hq1).
  assert (Es : s1 = s).
  { symmetry. apply extends_antisym.
    - pose proof (feed_extends p rx_init s) as H. rewrite Hp in H. exact H.
    - pose proof (feed_extends q' r1 s1) as H. rewrite Hq1 in H. exact H. }
  subst s1. exists r1. split; [exact Hp|].
  rewrite Hd in Hfull. rewrite (feed_app_ok _ _ _ _ _ _ Hp) in Hfull.
  eexists. split; [exact Hfull|]. split; reflexivity.
Qed.

Lemma no_report_before_last_byte_witness :
  exists r,
    feed rx_init
      [x0c; x00; x00; x00; x3c; x00; x00; x00; x00; x00; x00; x00;
       x6f; x6b; x00] new_session = (Ok r, new_session) /\
    exists s',
      feed r [x00] new_session = (Ok rx_init, s') /\
      printer s' = printer new_session ++ [packet_line 60 0 ([111; 107] ++ [0])] /\
      responsed_to s' = responsed_to new_session ++ [Some 60].
Proof.
  apply (no_report_before_last_byte 60 0 [111; 107] ok_reply_bytes).
  - vm_compute. reflexivity.
  - reflexivity.
  - discriminate.
Defined.

(** X2: any well-framed packet on the wire is reported, whoever built it:
    three 4-byte fields read as unsigned little-endian integers, the first
    being the number of item bytes plus 9, a non-empty item that is valid
    UTF-8, and one more byte of any value.  The report carries the id and
    the type read and the decoded item as body. *)
Theorem reception_of_wire_packet (fs fi ft item : list byte) (x : byte)
        (t : str) (s : RCON) :
  length fs = 4%nat -> length fi = 4%nat -> length ft = 4%nat ->
  item <> [] -> int_from_bytes fs = len item + 9 ->
  utf8_decode item = Some t ->
  exists s',
    feed rx_init (fs ++ fi ++ ft ++ item ++ [x]) s = (Ok rx_init, s') /\
    printer s' =
    printer s ++ [packet_line (int_from_bytes fi) (int_from_bytes ft) t] /\
    responsed_to s' = responsed_to s ++ [Some (int_from_bytes fi)] /\
    sock s' = sock s /\ running s' = running s.
Proof.
  intros H1 H2 H3 Hne Hsz Hdec.
  rewrite feed_header by assumption.
  erewrite feed_app_ok;
    [|rewrite (feed_body_item item _ (int_from_bytes fs));
      [rewrite Hdec; reflexivity|reflexivity|exact Hne|lia]].
  cbn [feed]. unfold bind. rewrite step_terminator.
  eexists. split; [reflexivity|]. repeat split.
Qed.

Lemma reception_of_wire_packet_witness :
  exists s',
    feed rx_init
      ([x0b; x00; x00; x00] ++ [xff; xff; xff; xff] ++ [x02; x00; x00; x00]
       ++ [x6f; x6b] ++ [x2a]) new_session = (Ok rx_init, s') /\
    printer s' =
    printer new_session
    ++ [packet_line (int_from_bytes [xff; xff; xff; xff])
          (int_from_bytes [x02; x00; x00; x00]) [111; 107]] /\
    responsed_to s' =
    responsed_to new_session ++ [Some (int_from_bytes [xff; xff; xff; xff])] /\
    sock s' = sock new_session /\ running s' = running new_session.
Proof.
  apply (reception_of_wire_packet [x0b; x00; x00; x00] [xff; xff; xff; xff]
           [x02; x00; x00; x00] [x6f; x6b] x2a [111; 107] new_session);
    try reflexivity.
  discriminate.
Defined.

Lemma feed_body_stuck (bs : list byte) :
  forall cs sz s,
    size cs = Some sz -> sz <= 9 ->
    feed {| state := 3; cur_item := []; cur_struct := cs |} bs s =
    (Ok {| state := 3; cur_item := []; cur_struct := cs |}, s).
Proof.
  induction bs as [|b bs IH]; intros cs sz s Hsz Hle.
  - reflexivity.
  - cbn [feed]. unfold bind.
    rewrite (step_body_stuck [] cs sz b s Hsz)
      by (change (len []) with 0; lia).
    apply (IH cs sz s Hsz Hle).
Qed.

(** X3: a header whose size field is below 10 wedges the parser: whatever
    bytes follow, in this read or in later ones, are dropped one by one;
    the parser stays at the start of the body state, reports nothing more
    and raises nothing. *)
Theorem undersized_packet_wedges_parser (fs fi ft rest : list byte)
        (chunks : list (list byte)) (s : RCON) :
  length fs = 4%nat -> length fi = 4%nat -> length ft = 4%nat ->
  int_from_bytes fs <= 9 ->
  running s = true -> Forall (fun c => c <> []) chunks ->
  reception ((fs ++ fi ++ ft ++ rest) :: chunks) s =
  (Ok (Reading {| state := 3; cur_item := [];
                  cur_struct := {| size := Some (int_from_bytes fs);
                                   pack_id := Some (int_from_bytes fi);
                                   pack_type := Some (int_from_bytes ft);
                                   body := None |} |}), s).
Proof.
  intros H1 H2 H3 Hsz Hr Hne. rewrite (reception_running _ _ Hr).
  rewrite reception_from_concat; [|exact Hr|].
  - cbn [concat]. unfold bind. rewrite <- !app_assoc, feed_header by assumption.
    rewrite (feed_body_stuck _ _ (int_from_bytes fs)); [reflexivity|reflexivity|exact Hsz].
  - constructor; [|exact Hne]. destruct fs; discriminate.
Qed.

Lemma undersized_packet_wedges_parser_witness :
  reception
    (([x09; x00; x00; x00] ++ [x32; x00; x00; x00] ++ [x02; x00; x00; x00]
      ++ [x00]) :: [ok_reply_bytes; auth_reply_bytes]) new_session =
  (Ok (Reading {| state := 3; cur_item := [];
                  cur_struct :=
                    {| size := Some (int_from_bytes [x09; x00; x00; x00]);
                       pack_id := Some (int_from_bytes [x32; x00; x00; x00]);
                       pack_type := Some (int_from_bytes [x02; x00; x00; x00]);
                       body := None |} |}), new_session).
Proof.
  apply (undersized_packet_wedges_parser [x09; x00; x00; x00]
           [x32; x00; x00; x00] [x02; x00; x00; x00] [x00]
           [ok_reply_bytes; auth_reply_bytes] new_session);
    try reflexivity.
  repeat constructor; discriminate.
Defined.

(** X4: the encoder is injective: two calls that return the same bytes were
    given the same id, type and body. *)
Theorem build_packet_injective (i i' t t' : Z) (b b' : str)
        (data : list byte) :
  build_packet i t b = Ok data -> build_packet i' t' b' = Ok data ->
  i = i' /\ t = t' /\ b = b'.
Proof.
  intros H H'.
  pose proof (feed_packet i t b data new_session H) as F.
  pose proof (feed_packet i' t' b' data new_session H') as F'.
  rewrite F in F'.
  assert (E : printer (received
                         {| size := None; pack_id := Some i;
                            pack_type := Some t; body := Some (b ++ [0]) |}
                         new_session) =
              printer (received
                         {| size := None; pack_id := Some i';
                            pack_type := Some t'; body := Some (b' ++ [0]) |}
                         new_session)) by congruence.
  cbn in E. injection E as Eb Ei Et. apply app_inj_tail in Eb.
  destruct Eb as [Eb _]. auto.
Qed.

Lemma build_packet_injective_witness :
  50 = 50 /\ 3 = 3 /\ hunter2 = hunter2.
Proof.
  apply (build_packet_injective 50 50 3 3 hunter2 hunter2
           [x11; x00; x00; x00; x32; x00; x00; x00; x03; x00; x00; x00;
            x68; x75; x6e; x74; x65; x72; x32; x00; x00]);
    vm_compute; reflexivity.
Defined.

Lemma rx_init_sound : rx_sound rx_init.
Proof.
  unfold rx_sound, rx_init. cbn. repeat split; try lia; try discriminate.
Qed.

Lemma step_sound (r : rx) (b : byte) (s : RCON) :
  rx_sound r -> sound_feed (fst (step r b s)).
Proof.
  destruct r as [st ci cs]. unfold rx_sound, step.
  cbn [state cur_item cur_struct]. intros (H4 & Hhdr & Hterm & Hsz & Hbody).
  destruct st as [|[|[|[|[|st]]]]]; cbn [Nat.eqb andb]; try lia.
  - specialize (Hhdr ltac:(lia)).
    destruct (Z.ltb_spec (len ci) 4); [|lia].
    rewrite len_app. change (len [b]) with 1.
    destruct (Z.eqb_spec (len ci + 1) 4) as [E|E]; cbn; unfold rx_sound; cbn.
    + repeat split; try lia; try discriminate.
      intros _. eexists. split; [reflexivity|].
      apply int_from_bytes_4. rewrite len_app. exact E.
    + rewrite len_app. change (len [b]) with 1.
      repeat split; try lia; try discriminate.
  - specialize (Hhdr ltac:(lia)). specialize (Hsz ltac:(lia)).
    destruct (Z.ltb_spec (len ci) 4); [|lia].
    rewrite len_app. change (len [b]) with 1.
    destruct (Z.eqb_spec (len ci + 1) 4) as [E|E]; cbn; unfold rx_sound; cbn.
    + repeat split; try lia; try discriminate. intros _. exact Hsz.
    + rewrite len_app. change (len [b]) with 1.
      repeat split; try lia; try discriminate. intros _. exact Hsz.
  - specialize (Hhdr ltac:(lia)). specialize (Hsz ltac:(lia)).
    destruct (Z.ltb_spec (len ci) 4); [|lia].
    rewrite len_app. change (len [b]) with 1.
    destruct (Z.eqb_spec (len ci + 1) 4) as [E|E]; cbn; unfold rx_sound; cbn.
    + repeat split; try lia; try discriminate.
      * intros _. exact Hsz.
      * intros _ sz _. left. reflexivity.
    + rewrite len_app. change (len [b]) with 1.
      repeat split; try lia; try discriminate. intros _. exact Hsz.
  - specialize (Hsz ltac:(lia)). destruct Hsz as (sz & Esz & Rsz).
    rewrite Esz.
    destruct (Z.ltb_spec (len ci) (sz - 9)).
    + rewrite len_app. change (len [b]) with 1.
      destruct (Z.eqb_spec (len ci + 1) (sz - 9)) as [E|E].
      * unfold bind, lift, bytes_decode.
        destruct (utf8_decode (ci ++ [b])); cbn; [|reflexivity].
        unfold rx_sound; cbn.
        repeat split; try lia; try discriminate.
        intros _. exists sz. auto.
      * cbn. unfold rx_sound; cbn. rewrite len_app. change (len [b]) with 1.
        repeat split; try lia; try discriminate.
        -- intros _. exists sz. auto.
        -- intros _ sz' E'. right. rewrite Esz in E'. injection E' as <-. lia.
    + cbn. unfold rx_sound; cbn.
      repeat split; try lia; try discriminate.
      * intros _. exists sz. auto.
      * intros _ sz' E'. apply (Hbody eq_refl sz' E').
  - cbn. unfold rx_sound; cbn. rewrite (Hterm eq_refl). change (len []) with 0.
    repeat split; try lia; try discriminate.
Qed.

Lemma feed_sound (bs : list byte) :
  forall r s, rx_sound r -> sound_feed (fst (feed r bs s)).
Proof.
  induction bs as [|b bs IH]; intros r s Hr.
  - exact Hr.
  - cbn [feed]. unfold bind. pose proof (step_sound r b s Hr) as H.
    destruct (step r b s) as [[r1|e] s1]; cbn [fst] in *.
    + apply IH. exact H.
    + exact H.
Qed.





(** X6: the item buffer stays within the current field: whatever bytes have
    been parsed, the state is one of 0 to 4; in the three header states the
    buffer holds fewer than 4 bytes; in the body state the size read is an
    unsigned 32-bit value and the buffer is empty or shorter than size - 9;
    in the terminator state the buffer is empty. *)
Theorem parser_buffer_bounded (bs : list byte) (s s' : RCON) (r : rx) :
  feed rx_init bs s = (Ok r, s') ->
  (state r <= 4)%nat
  /\ ((state r <= 2)%nat -> len (cur_item r) < 4)
  /\ (state r = 3%nat ->
      exists sz, size (cur_struct r) = Some sz /\ 0 <= sz < 2 ^ 32 /\
                 (cur_item r = [] \/ len (cur_item r) < sz - 9))
  /\ (state r = 4%nat -> cur_item r = [])
  /\ len (cur_item r) < 2 ^ 32.
Proof.
  intros H. pose proof (feed_sound bs rx_init s rx_init_sound) as S.
  rewrite H in S. cbn in S.
  destruct S as (H4 & Hhdr & Hterm & Hsz & Hbody).
  split; [exact H4|]. split; [exact Hhdr|]. split; [|split; [exact Hterm|]].
  - intros E. destruct (Hsz ltac:(lia)) as (sz & Esz & Rsz).
    exists sz. split; [exact Esz|]. split; [exact Rsz|].
    exact (Hbody E sz Esz).
  - destruct (Nat.le_gt_cases (state r) 2) as [L|L]; [specialize (Hhdr L); lia|].
    destruct (Hsz ltac:(lia)) as (sz & Esz & Rsz).
    destruct (Nat.eq_dec (state r) 3) as [E|E].
    + destruct (Hbody E sz Esz) as [-> | Hlt];
        [change (len []) with 0; lia|lia].
    + rewrite Hterm by lia. change (len []) with 0. lia.
Qed.

Lemma parser_buffer_bounded_witness :
  (3 <= 4)%nat
  /\ ((3 <= 2)%nat -> len [x41] < 4)
  /\ (3%nat = 3%nat ->
      exists sz, Some 11 = Some sz /\ 0 <= sz < 2 ^ 32 /\
                 ([x41] = [] \/ len [x41] < sz - 9))
  /\ (3%nat = 4%nat -> [x41] = [])
  /\ len [x41] < 2 ^ 32.
Proof.
  apply (parser_buffer_bounded
           [x0b; x00; x00; x00; x32; x00; x00; x00; x00; x00; x00; x00; x41]
           new_session new_session
           {| state := 3; cur_item := [x41]; cur_struct := header_11 |}).
  reflexivity.
Defined.

(** * Further properties of the session *)

Lemma send_cmd_unusable (o : send_outcome) (i : Z) (c : str) (s : RCON) :
  has_usable_sock s = false -> exists e, send_cmd o i c s = (Raise e, s).
Proof.
  unfold has_usable_sock. intros H. rewrite send_cmd_eq.
  destruct (sock s) as [k|]; [|eauto].
  destruct (build_packet i SERVERDATA_EXECCOMMAND c); [|eauto].
  rewrite H. eauto.
Qed.

Lemma disconnect_not_open (s : RCON) :
  has_open_sock s = false -> disconnect s = (Ok false, s).
Proof.
  unfold has_open_sock. intros H. rewrite disconnect_eq.
  destruct (sock s) as [k|]; [|reflexivity]. rewrite H. reflexivity.
Qed.

Lemma not_open_not_usable (s : RCON) :
  has_open_sock s = false -> has_usable_sock s = false.
Proof.
  unfold has_open_sock, has_usable_sock, usable, can_shut_down.
  destruct (sock s) as [k|]; [|reflexivity].
  intros ->. reflexivity.
Qed.

(** X7: the zero-length read ends the loop, whatever the running flag: it
    returns, later reads are never taken, and the session is left without
    an open socket, so that a later [disconnect] returns [False] and a
    later [send_cmd] raises.  The loop closes the socket itself, and prints
    the two lines that go with it, exactly when the socket was connected
    and not yet closed, shut down already or not; the responded ids and
    the running flag are untouched. *)
Theorem peer_closed_ends_reception (r : rx) (rest : list (list byte))
        (s : RCON) :
  exists s',
    reception_from r ([] :: rest) s = (Ok Returned, s')
    /\ has_open_sock s' = false
    /\ has_usable_sock s' = false
    /\ disconnect s' = (Ok false, s')
    /\ (forall o i c, exists e, send_cmd o i c s' = (Raise e, s'))
    /\ responsed_to s' = responsed_to s /\ running s' = running s
    /\ printer s' =
       printer s ++
       (if has_open_sock s
        then [plain MsgDisconnected; plain MsgPeerClosed;
              plain MsgReceptionClosed]
        else [plain MsgReceptionClosed]).
Proof.
  assert (H : exists s',
             reception_from r ([] :: rest) s = (Ok Returned, s')
             /\ has_open_sock s' = false
             /\ responsed_to s' = responsed_to s /\ running s' = running s
             /\ printer s' =
                printer s ++
                (if has_open_sock s
                 then [plain MsgDisconnected; plain MsgPeerClosed;
                       plain MsgReceptionClosed]
                 else [plain MsgReceptionClosed])).
  { rewrite reception_from_cons. unfold bind at 1.
    rewrite reception_turn_nil. unfold bind at 1. rewrite disconnect_eq.
    unfold has_open_sock.
    destruct (sock s) as [k|] eqn:Es; [destruct (can_shut_down k) eqn:Eu|].
    - eexists. split; [reflexivity|]. cbn. unfold can_shut_down. cbn.
      rewrite andb_false_r, <- !app_assoc. repeat split; auto.
    - eexists. split; [reflexivity|]. cbn. rewrite Es, Eu.
      repeat split; auto.
    - eexists. split; [reflexivity|]. cbn. rewrite Es. repeat split; auto. }
  destruct H as (s' & Hrun & Hu & Hids & Hrn & Hpr).
  exists s'. split; [exact Hrun|]. split; [exact Hu|].
  split; [apply not_open_not_usable; exact Hu|].
  split; [apply disconnect_not_open; exact Hu|].
  split; [intros o i c; apply send_cmd_unusable, not_open_not_usable;
          exact Hu|].
  auto.
Qed.

(** X8: when the peer refuses the connection, [connect] raises OSError
    before anything is printed, sent or waited for; the session is left
    holding the new, unconnected socket, so that [disconnect] afterwards
    returns [False] and [send_cmd] raises. *)
Theorem refused_connection (fuel : nat) (o : send_outcome)
        (env : nat -> list (list byte)) (s : RCON) :
  exists s',
    connect fuel false o env s = Some (ConnectRaised OSError s')
    /\ sock s' = Some fresh_socket
    /\ printer s' = printer s /\ responsed_to s' = responsed_to s
    /\ running s' = running s
    /\ disconnect s' = (Ok false, s')
    /\ (forall o' i c, exists e, send_cmd o' i c s' = (Raise e, s')).
Proof.
  exists (with_sock (Some fresh_socket) s).
  split; [reflexivity|]. do 4 (split; [reflexivity|]).
  split; [apply disconnect_not_open; reflexivity|].
  intros o' i c. apply send_cmd_unusable. reflexivity.
Qed.

(** X9: once connected, [connect] hands the auth packet - id 50, type
    SERVERDATA_AUTH, the password as body - to the new socket and to
    nothing else: the bytes written are the beginning of that packet that
    the transport took, on a socket that carries nothing from before, and
    the three lines are printed in order.  A password that the encoder
    rejects makes [connect] raise after the connection is made and the
    thread announced, with nothing written. *)
Theorem connect_sends_auth_packet (s : RCON) :
  (forall (data : list byte) (n : nat),
      build_packet 50 SERVERDATA_AUTH (password s) = Ok data ->
      exists s',
        connect_start true (Accepts n) s = (Ok tt, s')
        /\ sock s' = Some {| sock_connected := true; sock_shut := false;
                             sock_closed := false;
                             sock_sent := firstn n data |}
        /\ printer s' =
           printer s ++ [plain MsgConnected; plain MsgReceptionStarted;
                         plain MsgPasswordSent]
        /\ responsed_to s' = responsed_to s /\ running s' = running s)
  /\ (forall (e : exn) (o : send_outcome),
         build_packet 50 SERVERDATA_AUTH (password s) = Raise e ->
         exists s',
           connect_start true o s = (Raise e, s')
           /\ sock s' = Some open_socket
           /\ printer s' =
              printer s ++ [plain MsgConnected; plain MsgReceptionStarted]).
Proof.
  split.
  - intros data n Hb. eexists.
    unfold connect_start, bind, sock_connect, sock_send, sock_attr, bind,
      lift, raise, ret, print_with_prefix.
    cbn. rewrite Hb. cbn. split; [reflexivity|].
    rewrite <- !app_assoc. repeat split.
  - intros e o Hb. eexists.
    unfold connect_start, bind, sock_connect, sock_send, sock_attr, bind,
      lift, raise, ret, print_with_prefix.
    cbn. rewrite Hb. split; [reflexivity|].
    cbn. rewrite <- !app_assoc. repeat split.
Qed.

Lemma connect_sends_auth_packet_witness :
  exists s',
    connect_start true (Accepts 5) (RCON_init [] 27020 hunter2) = (Ok tt, s')
    /\ sock s' = Some {| sock_connected := true; sock_shut := false;
                         sock_closed := false;
                         sock_sent :=
                           firstn 5
                             [x11; x00; x00; x00; x32; x00; x00; x00;
                              x03; x00; x00; x00;
                              x68; x75; x6e; x74; x65; x72; x32; x00; x00] |}
    /\ printer s' =
       printer (RCON_init [] 27020 hunter2)
       ++ [plain MsgConnected; plain MsgReceptionStarted;
           plain MsgPasswordSent]
    /\ responsed_to s' = responsed_to (RCON_init [] 27020 hunter2)
    /\ running s' = running (RCON_init [] 27020 hunter2).
Proof.
  apply (proj1 (connect_sends_auth_packet (RCON_init [] 27020 hunter2))).
  vm_compute. reflexivity.
Defined.

Lemma connect_start_running (conn_ok : bool) (o : send_outcome) (s : RCON) :
  running (snd (connect_start conn_ok o s)) = running s.
Proof.
  unfold connect_start, bind, sock_connect, sock_send, sock_attr, bind, lift,
    raise, ret, print_with_prefix.
  destruct conn_ok; [|reflexivity]. cbn.
  destruct (build_packet 50 SERVERDATA_AUTH (password s)); [|reflexivity].
  destruct o; reflexivity.
Qed.

Lemma reception_from_responsed_to (recvs : list (list byte)) (r : rx)
      (s : RCON) :
  exists ids,
    responsed_to (snd (reception_from r recvs s)) = responsed_to s ++ ids.
Proof.
  destruct (reception_ids_prefix recvs r s) as (bs & rest & _ & E).
  rewrite E. apply (feed_extends bs r s).
Qed.

Lemma thread_run_responsed_to (recvs : list (list byte)) (w : world) :
  exists ids,
    responsed_to (w_self (thread_run recvs w)) =
    responsed_to (w_self w) ++ ids.
Proof.
  unfold thread_run. destruct (w_thread w) as [r|].
  - destruct (reception_from_responsed_to recvs r (w_self w)) as (ids & E).
    exists ids.
    destruct (reception_from r recvs (w_self w)) as [[[r1|]|e] s1]; exact E.
  - exists []. now rewrite app_nil_r.
Qed.

Lemma auth_wait_complete (env : nat -> list (list byte)) (n : nat) :
  forall fuel k w,
    (n <= fuel)%nat ->
    is_responded (w_self (polled env k n w)) 50 = true ->
    exists m,
      (m <= n)%nat /\ auth_wait fuel env k w = Some (polled env k m w).
Proof.
  induction n as [|n IH]; intros fuel k w Hf Hn.
  - exists 0%nat. split; [lia|]. cbn [polled] in *.
    destruct fuel; cbn [auth_wait]; rewrite Hn; reflexivity.
  - destruct fuel as [|fuel]; [lia|]. cbn [auth_wait].
    destruct (is_responded (w_self (thread_run (env k) w)) 50) eqn:E.
    + exists 0%nat. split; [lia|]. reflexivity.
    + cbn [polled] in Hn.
      destruct (IH fuel (S k) _ ltac:(lia) Hn) as (m & Hm & Hw).
      exists (S m). split; [lia|]. exact Hw.
Qed.

(** X10: [connect] returns on any packet that carries the id 50, whatever
    its type and body: if, on a running session whose auth packet went
    out, the reads taken by the poll number [n] begin with whole packets
    one of which has the id 50, then [connect] returns after at most [n]
    sleeps (given fuel for them), the id recorded.  The reply is not
    checked to be an auth response. *)
Theorem connect_returns_on_any_id_50 (conn_ok : bool) (o : send_outcome)
        (env : nat -> list (list byte)) (s : RCON) (n fuel : nat)
        (pkts : list packet) (datas : list (list byte)) (tail : list byte) :
  fst (connect_start conn_ok o s) = Ok tt ->
  running s = true ->
  Forall (fun c => c <> []) (reads env 0 n) ->
  Forall2 (fun p d => encode p = Ok d) pkts datas ->
  concat (reads env 0 n) = concat datas ++ tail ->
  Exists (fun p => p_id p = 50) pkts ->
  (n <= fuel)%nat ->
  exists w,
    connect fuel conn_ok o env s = Some (ConnectReturned w)
    /\ is_responded (w_self w) 50 = true
    /\ 0 <= w_slept w <= 200 * Z.of_nat n.
Proof.
  intros Hstart Hrun Hne Henc Hcat Hex Hfuel.
  set (w0 := waiting conn_ok o s).
  set (s0 := snd (connect_start conn_ok o s)).
  assert (Hr0 : running s0 = true)
    by (unfold s0; rewrite connect_start_running; exact Hrun).
  assert (Hw0 : w0 = {| w_self := s0; w_thread := Alive rx_init;
                        w_slept := 0 |})
    by (unfold w0, waiting; fold s0; apply thread_start_running; exact Hr0).
  assert (Hn : is_responded (w_self (polled env 0 n w0)) 50 = true).
  { rewrite polled_self, Hw0. unfold thread_run.
    cbn [w_thread w_self].
    assert (Hin : In (Some 50)
                    (responsed_to
                       (snd (reception_from rx_init (reads env 0 n) s0)))).
    { rewrite (reception_from_concat _ rx_init s0 Hr0 Hne), Hcat.
      destruct (feed_packets pkts datas s0 Henc) as (s1 & Hf & _ & Hids & _).
      unfold bind. rewrite (feed_app_ok _ tail _ _ _ _ Hf).
      pose proof (feed_extends tail rx_init s1) as Hext.
      destruct Hext as (_ & _ & _ & _ & _ & (ids & Hmore) & _).
      assert (Hin1 : In (Some 50) (responsed_to s1)).
      { rewrite Hids. apply in_or_app. right. apply in_map_iff.
        apply Exists_exists in Hex. destruct Hex as (p & Hp & E).
        exists p. split; [congruence|exact Hp]. }
      destruct (feed rx_init tail s1) as [[r2|e] s2]; unfold ret;
        cbn [snd] in *; rewrite Hmore; apply in_or_app; left; exact Hin1. }
    apply is_responded_In.
    destruct (reception_from rx_init (reads env 0 n) s0) as [[[r1|]|e] s1];
      exact Hin. }
  destruct (auth_wait_complete env n fuel 0 w0 Hfuel Hn) as (m & Hm & Hw).
  exists (polled env 0 m w0). unfold connect.
  destruct (auth_wait_some env fuel 0 _ _ Hw) as (Hr & _).
  assert (Hsl : w_slept (polled env 0 m w0) = 200 * Z.of_nat m)
    by (rewrite polled_slept, Hw0; cbn [w_slept]; lia).
  assert (Hts : thread_start s0 = w0) by reflexivity.
  clearbody w0. unfold s0 in *. clear s0.
  destruct (connect_start conn_ok o s) as [[[]|e] s0] eqn:Ec; [|discriminate].
  cbn [snd] in *. rewrite Hts, Hw.
  split; [reflexivity|]. split; [exact Hr|]. lia.
Qed.

Lemma connect_returns_on_any_id_50_witness :
  exists w,
    connect 9 true (Accepts 100) wrong_type_env new_session =
    Some (ConnectReturned w)
    /\ is_responded (w_self w) 50 = true
    /\ 0 <= w_slept w <= 200 * Z.of_nat 2.
Proof.
  apply (connect_returns_on_any_id_50 true (Accepts 100) wrong_type_env
           new_session 2 9
           [{| p_id := 50; p_type := 0; p_body := [] |}]
           [[x0a; x00; x00; x00; x32; x00; x00; x00; x00; x00; x00; x00;
             x00; x00]] []).
  - reflexivity.
  - reflexivity.
  - repeat constructor; discriminate.
  - repeat constructor.
  - reflexivity.
  - constructor. reflexivity.
  - lia.
Defined.

(** X11: a session that has already recorded the id 50 does not wait for
    the server at all: once its auth packet went out, [connect] returns at
    the first poll, without sleeping, whatever the server sends or fails
    to send. *)
Theorem reconnect_does_not_wait (fuel : nat) (conn_ok : bool)
        (o : send_outcome) (env : nat -> list (list byte)) (s : RCON) :
  is_responded s 50 = true ->
  fst (connect_start conn_ok o s) = Ok tt ->
  exists w,
    connect fuel conn_ok o env s = Some (ConnectReturned w)
    /\ w_slept w = 0 /\ is_responded (w_self w) 50 = true.
Proof.
  intros H50 Hstart. unfold connect.
  pose proof (connect_start_responsed_to conn_ok o s) as Hids.
  destruct (connect_start conn_ok o s) as [[[]|e] s0] eqn:Ec; [|discriminate].
  cbn [snd] in Hids.
  set (w0 := thread_start s0).
  assert (H1 : is_responded (w_self (thread_run (env 0%nat) w0)) 50 = true).
  { destruct (thread_run_responsed_to (env 0%nat) w0) as (ids & E).
    apply (is_responded_app (w_self w0) _ ids 50 E).
    unfold is_responded in *. unfold w0.
    rewrite thread_start_responsed_to, Hids. exact H50. }
  exists (thread_run (env 0%nat) w0).
  assert (Hw : auth_wait fuel env 0 w0 = Some (thread_run (env 0%nat) w0)).
  { destruct fuel; cbn [auth_wait]; rewrite H1; reflexivity. }
  rewrite Hw. split; [reflexivity|]. split; [|exact H1].
  pose proof (polled_slept env 0 0 w0) as Hs. cbn [polled] in Hs.
  rewrite Hs. unfold w0. rewrite thread_start_slept. reflexivity.
Qed.

Lemma reconnect_does_not_wait_witness :
  exists w,
    connect 0 true (Accepts 100) (fun _ => [])
      (with_responsed_to [Some 50] new_session) = Some (ConnectReturned w)
    /\ w_slept w = 0 /\ is_responded (w_self w) 50 = true.
Proof.
  apply (reconnect_does_not_wait 0 true (Accepts 100) (fun _ => [])
           (with_responsed_to [Some 50] new_session)).
  - reflexivity.
  - reflexivity.
Defined.

(** * The save-and-exit sequence *)

Lemma reception_turn_sent (r : rx) (buf : list byte) (s : RCON) :
  sent (snd (reception_turn r buf s)) = sent s.
Proof.
  destruct buf as [|b buf].
  - rewrite reception_turn_nil. unfold bind. rewrite disconnect_eq.
    unfold sent.
    destruct (sock s) as [k|] eqn:Es; [destruct (can_shut_down k)|]; cbn;
      rewrite ?Es; reflexivity.
  - pose proof (feed_extends (b :: buf) r s) as H.
    destruct H as (_ & _ & _ & Hs & _).
    destruct (reception_turn_cases r b buf s)
      as [(e & s1 & Ef & Et)|[(r1 & s1 & Ef & Er & Et)
                              |(r1 & s1 & Ef & Er & Et)]];
      rewrite Ef in Hs; rewrite Et; cbn [snd] in *; unfold sent;
      cbn [sock with_printer]; rewrite Hs; reflexivity.
Qed.

Lemma reception_from_sent (recvs : list (list byte)) :
  forall r s, sent (snd (reception_from r recvs s)) = sent s.
Proof.
  induction recvs as [|buf recvs IH]; intros r s.
  - reflexivity.
  - rewrite reception_from_cons. unfold bind.
    pose proof (reception_turn_sent r buf s) as H.
    destruct (reception_turn r buf s) as [[[r1|]|e] s1]; cbn [snd] in *.
    + rewrite IH. exact H.
    + exact H.
    + exact H.
Qed.

Lemma thread_run_sent (recvs : list (list byte)) (w : world) :
  sent (w_self (thread_run recvs w)) = sent (w_self w).
Proof.
  unfold thread_run. destruct (w_thread w) as [r|]; [|reflexivity].
  pose proof (reception_from_sent recvs r (w_self w)) as H.
  destruct (reception_from r recvs (w_self w)) as [[[r1|]|e] s1]; exact H.
Qed.

Lemma thread_run_slept (recvs : list (list byte)) (w : world) :
  w_slept (thread_run recvs w) = w_slept w.
Proof.
  unfold thread_run. destruct (w_thread w) as [r|]; [|reflexivity].
  destruct (reception_from r recvs (w_self w)) as [[[r1|]|e] s1]; reflexivity.
Qed.

Lemma thread_run_sleep_2s (recvs : list (list byte)) (w : world) :
  thread_run recvs (sleep_2s w) = sleep_2s (thread_run recvs w).
Proof.
  unfold thread_run, sleep_2s. cbn [w_thread w_self w_slept].
  destruct (w_thread w) as [r|] eqn:Et; [|rewrite Et; reflexivity].
  destruct (reception_from r recvs (w_self w)) as [[[r1|]|e] s1]; reflexivity.
Qed.


Lemma reads_thread_run (env : nat -> list (list byte)) (k n : nat)
      (w : world) :
  w_self (thread_run (reads env (S k) n) (sleep_2s (thread_run (env k) w))) =
  w_self (thread_run (reads env k (S n)) w).
Proof.
  cbn [reads]. rewrite thread_run_app, thread_run_sleep_2s. reflexivity.
Qed.

(** A wait whose id never comes is still running after any number of
    sleeps. *)
Lemma await_reply_blocked (env : nat -> list (list byte)) (i : Z)
      (fuel : nat) :
  forall c,
    (forall n,
        is_responded
          (w_self (thread_run (reads env (c_poll c) n) (c_world c))) i
        = false) ->
    exists c',
      await_reply fuel env i c = StillWaiting c'
      /\ c_awaiting c' = (c_awaiting c + fuel)%nat
      /\ w_slept (c_world c') = w_slept (c_world c) + 2000 * Z.of_nat fuel
      /\ sent (w_self (c_world c')) = sent (w_self (c_world c))
      /\ is_responded (w_self (c_world c')) i = false.
Proof.
  induction fuel as [|f IH]; intros c H; cbn [await_reply].
  - pose proof (H 0%nat) as H0. cbn [reads] in H0. rewrite H0.
    eexists. split; [reflexivity|]. cbn [c_world c_awaiting].
    rewrite thread_run_slept, thread_run_sent. repeat split; try lia.
    exact H0.
  - pose proof (H 0%nat) as H0. cbn [reads] in H0. rewrite H0.
    destruct (IH {| c_world := sleep_2s (thread_run (env (c_poll c)) (c_world c));
                    c_awaiting := S (c_awaiting c);
                    c_poll := S (c_poll c) |})
      as (c' & Hw & Ha & Hsl & Hs & Hr).
    { intros n. cbn [c_world c_poll]. rewrite reads_thread_run. apply (H (S n)). }
    exists c'. split; [exact Hw|].
    cbn [c_world c_awaiting c_poll sleep_2s w_self w_slept] in *.
    rewrite thread_run_slept in Hsl. rewrite thread_run_sent in Hs.
    repeat split; try lia; assumption.
Qed.

(** Packets without the id [i] do not get [i] recorded, however the stream
    is cut and wherever it stops. *)
Lemma not_sent_not_responded (i : Z) (recvs : list (list byte)) (s : RCON)
      (pkts : list packet) (datas : list (list byte)) (more : list byte) :
  Forall2 (fun p d => encode p = Ok d) pkts datas ->
  Forall (fun p => p_id p <> i) pkts ->
  concat recvs ++ more = concat datas ->
  is_responded s i = false ->
  is_responded (snd (reception_from rx_init recvs s)) i = false.
Proof.
  intros Henc Hids Hstream H0.
  destruct (is_responded (snd (reception_from rx_init recvs s)) i) eqn:E;
    [exfalso|reflexivity].
  apply is_responded_In in E.
  destruct (reception_ids_prefix recvs rx_init s) as (bs & rest & Hc & Hr).
  rewrite Hr in E.
  destruct (feed_packets pkts datas s Henc) as (s' & Hf & _ & Hre & _).
  rewrite <- Hstream, Hc, <- app_assoc in Hf.
  apply feed_app_inv in Hf. destruct Hf as (r1 & s1 & Hf1 & Hf2).
  rewrite Hf1 in E. cbn [snd] in E.
  pose proof (feed_extends (rest ++ more) r1 s1) as Hext.
  rewrite Hf2 in Hext. destruct Hext as (_ & _ & _ & _ & _ & (ids & Hids') & _).
  cbn [snd] in Hids'.
  assert (Hin : In (Some i) (responsed_to s')).
  { rewrite Hids'. apply in_or_app. left. exact E. }
  rewrite Hre in Hin. apply in_app_or in Hin. destruct Hin as [Hin|Hin].
  - apply is_responded_In in Hin. congruence.
  - apply in_map_iff in Hin. destruct Hin as (p & Hp & Hin).
    rewrite Forall_forall in Hids. apply (Hids p Hin). congruence.
Qed.

Lemma saveworld_packet_built :
  build_packet 60 SERVERDATA_EXECCOMMAND saveworld = Ok saveworld_packet.
Proof. vm_compute. reflexivity. Qed.


Lemma send_cmd_ok_sent (o : send_outcome) (i : Z) (c : str) (s s1 : RCON)
      (x : unit) :
  send_cmd o i c s = (Ok x, s1) ->
  exists data n,
    build_packet i SERVERDATA_EXECCOMMAND c = Ok data /\ o = Accepts n
    /\ sent s1 = sent s ++ firstn n data
    /\ responsed_to s1 = responsed_to s.
Proof.
  rewrite send_cmd_eq. unfold sent.
  destruct (sock s) as [k|]; [|discriminate].
  destruct (build_packet i SERVERDATA_EXECCOMMAND c) as [data|e];
    [|discriminate].
  destruct (usable k); [|discriminate].
  destruct o as [n|]; [|discriminate].
  intros H. assert (E : s1 = snd (Ok x, s1)) by reflexivity.
  rewrite <- H in E. cbn [snd] in E. subst s1.
  exists data, n. repeat split.
Qed.

(** X12: in the save-and-exit sequence [doexit] is held back until the
    reply to [saveworld] has been parsed: if the server never sends a packet
    with the id 60 - whatever else it sends, a packet with the id 61
    included - then after any number of polls the caller is still in the
    first wait, having printed one line and slept two seconds per poll, and
    the socket has been handed the accepted beginning of the [saveworld]
    packet and no byte of the [doexit] packet. *)
Theorem doexit_waits_for_saveworld (fuel : nat)
        (env : nat -> list (list byte)) (outcome : Z -> send_outcome)
        (s : RCON) (n : nat) :
  has_usable_sock s = true -> outcome 60 = Accepts n ->
  is_responded s 60 = false -> never_sends 60 env ->
  exists c,
    save_and_exit fuel env outcome (starting s) = SequenceWaiting 60 c
    /\ sent (w_self (c_world c)) = sent s ++ firstn n saveworld_packet
    /\ is_responded (w_self (c_world c)) 60 = false
    /\ c_awaiting c = fuel
    /\ w_slept (c_world c) = 2000 * Z.of_nat fuel.
Proof.
  intros Hu Ho H0 Hnever.
  unfold save_and_exit, starting.
  cbn [issue_commands c_world c_awaiting c_poll w_self w_thread w_slept].
  destruct (send_cmd (outcome 60) 60 saveworld s) as [[x|e] s1] eqn:Es.
  2:{ exfalso. rewrite send_cmd_eq, saveworld_packet_built in Es.
      unfold has_usable_sock in Hu. destruct (sock s) as [k|];
        [|discriminate].
      rewrite Hu, Ho in Es. discriminate. }
  destruct (send_cmd_ok_sent _ _ _ _ _ _ Es) as (data & n' & Hb & Ho' & Hs & Hi).
  rewrite saveworld_packet_built in Hb. injection Hb as <-.
  rewrite Ho in Ho'. injection Ho' as <-.
  destruct (await_reply_blocked env 60 fuel
              {| c_world := {| w_self := s1; w_thread := Alive rx_init;
                               w_slept := 0 |};
                 c_awaiting := 0; c_poll := 0 |})
    as (c' & Hw & Ha & Hsl & Hsent & Hr).
  { intros m. cbn [c_world c_poll]. unfold thread_run. cbn [w_thread w_self].
    destruct (Hnever m) as (pkts & datas & more & Henc & Hids & Hstream).
    assert (H1 : is_responded s1 60 = false)
      by (unfold is_responded in *; rewrite Hi; exact H0).
    pose proof (not_sent_not_responded 60 (reads env 0 m) s1 pkts datas more
                  Henc Hids Hstream H1) as Hno.
    destruct (reception_from rx_init (reads env 0 m) s1) as [[[r1|]|e] s2];
      exact Hno. }
  rewrite Hw. exists c'. split; [reflexivity|].
  cbn [c_world c_awaiting w_self w_slept] in *.
  rewrite Hsent, Hs. repeat split; try assumption; lia.
Qed.

Lemma deaf_env_never_sends_60 : never_sends 60 deaf_env.
Proof.
  intros n.
  exists [{| p_id := 61; p_type := 0; p_body := [] |}],
         [[x0a; x00; x00; x00; x3d; x00; x00; x00; x00; x00; x00; x00;
           x00; x00]], [].
  split; [repeat constructor|]. split; [repeat constructor; discriminate|].
  assert (H : forall m k, reads deaf_env (S k) m = []).
  { induction m as [|m IH]; intros k; cbn [reads deaf_env]; [reflexivity|].
    rewrite IH. reflexivity. }
  destruct n as [|n]; cbn [reads deaf_env]; [reflexivity|].
  rewrite H. reflexivity.
Qed.

Lemma doexit_waits_for_saveworld_witness :
  exists c,
    save_and_exit 4 deaf_env (fun _ => Accepts 100)
      (starting connected_session) = SequenceWaiting 60 c
    /\ sent (w_self (c_world c)) =
       sent connected_session ++ firstn 100 saveworld_packet
    /\ is_responded (w_self (c_world c)) 60 = false
    /\ c_awaiting c = 4%nat
    /\ w_slept (c_world c) = 2000 * Z.of_nat 4.
Proof.
  apply (doexit_waits_for_saveworld 4 deaf_env (fun _ => Accepts 100)
           connected_session 100).
  - reflexivity.
  - reflexivity.
  - reflexivity.
  - exact deaf_env_never_sends_60.
Defined.

(** ** Ids recorded and lines printed *)














(** ** The end of the reception loop *)

Lemma await_reply_dead (env : nat -> list (list byte)) (i : Z) (fuel : nat) :
  forall c,
    w_thread (c_world c) = Dead ->
    is_responded (w_self (c_world c)) i = false ->
    exists c',
      await_reply fuel env i c = StillWaiting c'
      /\ w_self (c_world c') = w_self (c_world c)
      /\ w_thread (c_world c') = Dead
      /\ c_awaiting c' = (c_awaiting c + fuel)%nat
      /\ w_slept (c_world c') = w_slept (c_world c) + 2000 * Z.of_nat fuel.
Proof.
  induction fuel as [|f IH]; intros c Hd H0; cbn [await_reply];
    rewrite (thread_run_dead _ _ Hd), H0.
  - eexists. split; [reflexivity|]. cbn.
    split; [reflexivity|]. split; [exact Hd|].
    split; [lia|symmetry; apply Z.add_0_r].
  - destruct (IH {| c_world := sleep_2s (c_world c);
                    c_awaiting := S (c_awaiting c);
                    c_poll := S (c_poll c) |})
      as (c' & Hw & Hs & Ht & Ha & Hsl).
    + exact Hd.
    + exact H0.
    + exists c'. split; [exact Hw|].
      cbn [c_world c_awaiting c_poll sleep_2s w_self w_thread w_slept] in *.
      split; [exact Hs|]. split; [exact Ht|]. split; lia.
Qed.

(** The turn of the loop that is its last: on a zero-length read, on a
    read taken with the flag cleared, or on a read whose parsing raises.
    The ids it records are those of the bytes read. *)
Lemma reception_turn_last (r : rx) (buf : list byte) (s : RCON) :
  buf = [] \/ running s = false \/
  (exists e, fst (feed r buf s) = Raise e) ->
  (forall r', fst (reception_turn r buf s) <> Ok (Reading r'))
  /\ responsed_to (snd (reception_turn r buf s)) =
     responsed_to (snd (feed r buf s)).
Proof.
  intros H. destruct buf as [|b buf].
  - split.
    + intros r'. rewrite reception_turn_nil_returned. discriminate.
    + apply reception_turn_responsed_to_closed.
  - pose proof (feed_running (b :: buf) r s) as Hrun.
    destruct (reception_turn_cases r b buf s)
      as [(e & s1 & Ef & Et)|[(r1 & s1 & Ef & Er & Et)
                              |(r1 & s1 & Ef & Er & Et)]];
      rewrite Ef in *; rewrite Et; cbn [fst snd] in *.
    + split; [discriminate|reflexivity].
    + exfalso. destruct H as [H|[H|(e & H)]]; [discriminate|congruence|].
      discriminate.
    + split; [discriminate|reflexivity].
Qed.

(** X14: the reception loop ends for good on a zero-length read, on the
    first read taken after the running flag was cleared (which is still
    parsed), and on a read whose parsing raises; the reads that follow are
    never taken.  A caller that then waits for an id which the bytes
    parsed so far have not brought is still waiting after any number of
    polls, a line printed and two seconds slept for each, whatever the
    server sends later in the same poll or in the following ones. *)
Theorem ended_reception_blocks_waits (fuel : nat)
        (env : nat -> list (list byte)) (i : Z) (c : caller) (r : rx)
        (buf : list byte) (post : list (list byte)) :
  w_thread (c_world c) = Alive r ->
  env (c_poll c) = buf :: post ->
  buf = [] \/ running (w_self (c_world c)) = false \/
  (exists e, fst (feed r buf (w_self (c_world c))) = Raise e) ->
  is_responded (snd (feed r buf (w_self (c_world c)))) i = false ->
  exists c',
    await_reply fuel env i c = StillWaiting c'
    /\ responsed_to (w_self (c_world c')) =
       responsed_to (snd (feed r buf (w_self (c_world c))))
    /\ is_responded (w_self (c_world c')) i = false
    /\ w_thread (c_world c') = Dead
    /\ c_awaiting c' = (c_awaiting c + fuel)%nat
    /\ w_slept (c_world c') = w_slept (c_world c) + 2000 * Z.of_nat fuel.
Proof.
  intros Ha Henv Hend H0.
  destruct (reception_turn_last r buf (w_self (c_world c)) Hend)
    as (Hlast & Hids).
  assert (Hw1 : exists s',
             thread_run (env (c_poll c)) (c_world c) =
             {| w_self := s'; w_thread := Dead;
                w_slept := w_slept (c_world c) |}
             /\ responsed_to s' =
                responsed_to (snd (feed r buf (w_self (c_world c))))).
  { unfold thread_run. rewrite Ha, Henv, reception_from_cons. unfold bind.
    destruct (reception_turn r buf (w_self (c_world c))) as [[[r'|]|e] s'];
      cbn [fst snd] in *.
    - exfalso. apply (Hlast r'). reflexivity.
    - exists s'. split; [reflexivity|exact Hids].
    - exists s'. split; [reflexivity|exact Hids]. }
  destruct Hw1 as (s' & Hw1 & Hs').
  assert (H0' : is_responded s' i = false)
    by (unfold is_responded in *; rewrite Hs'; exact H0).
  destruct fuel as [|f]; cbn [await_reply]; rewrite Hw1; cbn [w_self];
    rewrite H0'.
  - eexists. split; [reflexivity|]. cbn. repeat split; try assumption; lia.
  - destruct (await_reply_dead env i f
                {| c_world := sleep_2s {| w_self := s'; w_thread := Dead;
                                          w_slept := w_slept (c_world c) |};
                   c_awaiting := S (c_awaiting c);
                   c_poll := S (c_poll c) |} eq_refl H0')
      as (c' & Hw & Hs & Ht & Hn & Hsl).
    exists c'. split; [exact Hw|].
    cbn [c_world c_awaiting c_poll sleep_2s w_self w_thread w_slept] in *.
    rewrite Hs. repeat split; try assumption; lia.
Qed.

Lemma ended_reception_blocks_waits_witness :
  (exists c',
      await_reply 6 garbled_env 60 (starting connected_session) =
      StillWaiting c'
      /\ responsed_to (w_self (c_world c')) =
         responsed_to
           (snd (feed rx_init
                   [x0b; x00; x00; x00; x3c; x00; x00; x00; x00; x00; x00;
                    x00; xff; x00; x00]
                   (w_self (c_world (starting connected_session)))))
      /\ is_responded (w_self (c_world c')) 60 = false
      /\ w_thread (c_world c') = Dead
      /\ c_awaiting c' = (c_awaiting (starting connected_session) + 6)%nat
      /\ w_slept (c_world c') =
         w_slept (c_world (starting connected_session)) + 2000 * Z.of_nat 6)
  /\ (exists c',
         await_reply 6 obedient_env 61
           {| c_world := {| w_self := with_running false connected_session;
                            w_thread := Alive rx_init; w_slept := 0 |};
              c_awaiting := 0; c_poll := 1 |} = StillWaiting c'
         /\ responsed_to (w_self (c_world c')) =
            responsed_to
              (snd (feed rx_init
                      [x0a; x00; x00; x00; x3c; x00; x00; x00; x00; x00; x00;
                       x00; x00; x00]
                      (with_running false connected_session)))
         /\ is_responded (w_self (c_world c')) 61 = false
         /\ w_thread (c_world c') = Dead
         /\ c_awaiting c' = (0 + 6)%nat
         /\ w_slept (c_world c') = 0 + 2000 * Z.of_nat 6).
Proof.
  split.
  - apply (ended_reception_blocks_waits 6 garbled_env 60
             (starting connected_session) rx_init
             [x0b; x00; x00; x00; x3c; x00; x00; x00; x00; x00; x00; x00;
              xff; x00; x00]
             []).
    + reflexivity.
    + reflexivity.
    + right. right. exists UnicodeDecodeError. reflexivity.
    + reflexivity.
  - apply (ended_reception_blocks_waits 6 obedient_env 61
             {| c_world := {| w_self := with_running false connected_session;
                              w_thread := Alive rx_init; w_slept := 0 |};
                c_awaiting := 0; c_poll := 1 |} rx_init
             [x0a; x00; x00; x00; x3c; x00; x00; x00; x00; x00; x00; x00;
              x00; x00]
             []).
    + reflexivity.
    + reflexivity.
    + right. left. reflexivity.
    + reflexivity.
Defined.
